(** * Gradient cache and masked-grid renderer of Conway's Arcade

    A shallow embedding of [lib/GradientCache.js] and
    [lib/SimpleGradientRenderer.js], and the properties of the colour
    lookup, the pre-bake and the masked-grid compositor.

    Conventions of the embedding.
    - A JavaScript number is [NaN] or a finite value carried as an exact
      rational; every arithmetic result is stored in lowest terms, so that
      equal numbers are equal terms.  The operations that decide a cache
      index ([* 0.5], [%], [Math.floor], [Math.min], [Math.max]) are exact
      on IEEE doubles, so the rational model agrees with them; infinities
      and overflow are outside the model, and the sign of zero is not
      tracked (it never reaches an array index: [Math.max(0, -0)] is [0]).
      Sums, differences and products are exact too, where a double is
      rounded to 53 bits: a statement that compares the results of two
      different computations is made on numbers for which the code's
      results are exact, or says so.
    - [undefined] is [None]; an array is a [list].
    - The host library p5.js is not part of the repository: its Perlin
      [noise] and its [lerp] are fields of the record [P5]; its mutable
      global state (the noise seed, the drawing command stream, the window
      flag) is the record [World], threaded explicitly.  Two more parts of
      the host are kept apart from [World]: the noise detail (octaves and
      falloff), which [noise] reads and [noiseSeed] leaves as it is, selects
      the [P5] in force through a [Library]; and [loadPixels], which may
      throw, is the record [CanvasHost].
    - [console.log], [console.warn] and [Date.now] only feed diagnostics and
      are left out. *)

From Stdlib Require Import ZArith QArith Qround Qreduction Lia.
From stdpp Require Import base option list.

Local Open Scope Z_scope.

(** ** JavaScript numbers *)

Module JS.

Inductive number : Type :=
| NaN : number
| Fin : Q -> number.

(** Integer literals and integer-valued numbers. *)
Definition ofZ (z : Z) : number := Fin (inject_Z z).

(** Truncation toward zero of a rational. *)
Definition Qtrunc (q : Q) : Z := Z.quot (Qnum q) (Zpos (Qden q)).

Definition isNaN (a : number) : bool :=
  match a with NaN => true | Fin _ => false end.

Definition add (a b : number) : number :=
  match a, b with
  | Fin x, Fin y => Fin (Qplus' x y)
  | _, _ => NaN
  end.

Definition sub (a b : number) : number :=
  match a, b with
  | Fin x, Fin y => Fin (Qminus' x y)
  | _, _ => NaN
  end.

Definition mul (a b : number) : number :=
  match a, b with
  | Fin x, Fin y => Fin (Qmult' x y)
  | _, _ => NaN
  end.

(** [a / b]; a zero divisor gives an infinity or NaN in JavaScript, both
    outside the finite values: the model answers [NaN]. *)
Definition div (a b : number) : number :=
  match a, b with
  | Fin x, Fin y =>
      if Qeq_bool y 0 then NaN else Fin (Qred (x / y))
  | _, _ => NaN
  end.

(** [a % b]: the remainder of the division truncated toward zero, so the
    result takes the sign of the dividend; [NaN] when the divisor is zero. *)
Definition rem (a b : number) : number :=
  match a, b with
  | Fin x, Fin y =>
      if Qeq_bool y 0 then NaN
      else Fin (Qred (x - y * inject_Z (Qtrunc (x / y))))
  | _, _ => NaN
  end.

Definition Math_floor (a : number) : number :=
  match a with
  | Fin x => ofZ (Qfloor x)
  | NaN => NaN
  end.

(** [Math.max] and [Math.min] answer [NaN] as soon as one argument is. *)
Definition Math_max (a b : number) : number :=
  match a, b with
  | Fin x, Fin y => if Qle_bool x y then Fin y else Fin x
  | _, _ => NaN
  end.

Definition Math_min (a b : number) : number :=
  match a, b with
  | Fin x, Fin y => if Qle_bool x y then Fin x else Fin y
  | _, _ => NaN
  end.

(** Same numeric value (decidable; on results of the operations above it
    coincides with equality of terms). *)
Definition eqb (a b : number) : bool :=
  match a, b with
  | NaN, NaN => true
  | Fin x, Fin y => Qeq_bool x y
  | _, _ => false
  end.

(** The array index a number denotes, when it is a non-negative integer:
    [a[i]] for any other [i] names a property no array has. *)
Definition index (a : number) : option nat :=
  match a with
  | Fin x =>
      if Qeq_bool x (inject_Z (Qfloor x)) && (0 <=? Qfloor x)
      then Some (Z.to_nat (Qfloor x)) else None
  | NaN => None
  end.

(** [arr[i]]: [undefined] outside the array. *)
Definition get {A : Type} (arr : list A) (i : number) : option A :=
  match index i with
  | Some n => arr !! n
  | None => None
  end.

(** Conversion applied by a write into a [Uint8ClampedArray] (the pixel
    array of a canvas): [undefined] and [NaN] become 0, other values are
    clamped to the range 0..255 and rounded to the nearest integer, ties to
    the even one. *)
Definition roundHalfEven (q : Q) : Z :=
  let f := Qfloor q in
  match Qcompare (q - inject_Z f) (1 # 2) with
  | Lt => f
  | Gt => f + 1
  | Eq => if Z.even f then f else f + 1
  end.

Definition toUint8Clamp (v : option number) : Z :=
  match v with
  | Some (Fin q) =>
      if Qle_bool q 0 then 0
      else if Qle_bool 255 q then 255
      else roundHalfEven q
  | _ => 0
  end.

End JS.

Import JS.

Declare Scope js_scope.
Delimit Scope js_scope with js.
Bind Scope js_scope with number.
Infix "+" := JS.add : js_scope.
Infix "-" := JS.sub : js_scope.
Infix "*" := JS.mul : js_scope.
Infix "/" := JS.div : js_scope.
Infix "%%" := JS.rem (at level 40, left associativity) : js_scope.
Coercion JS.ofZ : Z >-> number.


(** ** The host: p5.js in global mode *)

(** A JavaScript call either returns or throws; the only exception this code
    can raise is the [TypeError] of reading a property of [null] or
    [undefined]. *)
Inductive completion (A : Type) : Type :=
| Return : A -> completion A
| TypeError : completion A.
Arguments Return {A} _.
Arguments TypeError {A}.

(** The pure functions of p5 the code calls.  [p5_noise s x y z] is Perlin
    noise at [(x, y, z)] for the permutation table that [noiseSeed] installed
    ([s = Some seed]) or that p5 drew by itself when [noise] was first called
    ([s = None]); a call with two arguments has [z = 0].  [p5_lerp] is
    [lerp(start, stop, amt)]. *)
Record P5 : Type := {
  p5_noise : option number -> number -> number -> number -> number;
  p5_lerp : number -> number -> number -> number
}.

(** p5's own [lerp]: [amt * (stop - start) + start]. *)
Definition lerp (start stop amt : number) : number :=
  (amt * (stop - start) + start)%js.

(** Drawing calls received by the p5 canvas, in order. *)
Inductive DrawCmd : Type :=
| Push
| NoStroke
| Fill (r g b : option number)
| Rect (x y w h : number)
| Pop.

(** The mutable global state shared through [window]: the seed last given to
    [noiseSeed], the flag [window._debugAnimationDisabled] and the drawing
    calls issued so far. *)
Record World : Type := {
  noiseSeeded : option number;
  _debugAnimationDisabled : bool;
  drawn : list DrawCmd
}.

Definition noiseSeed (seed : number) (w : World) : World :=
  {| noiseSeeded := Some seed;
     _debugAnimationDisabled := _debugAnimationDisabled w;
     drawn := drawn w |}.

Definition draw (c : DrawCmd) (w : World) : World :=
  {| noiseSeeded := noiseSeeded w;
     _debugAnimationDisabled := _debugAnimationDisabled w;
     drawn := drawn w ++ [c] |}.

(** An off-screen buffer made by [createGraphics(w, h)] (pixel density 1):
    [4 * w * h] bytes in RGBA order, all zero at creation.  [loadPixels] and
    [updatePixels] move the bytes between the canvas and the array and are
    the identity here.  What p5 and the browser do for a dimension that is
    not positive is outside the sources: the buffer is then taken to be
    empty, and that [loadPixels] may throw on it is told by [CanvasHost]
    below and followed by [GradientCache.prebakeOn]. *)
Record Graphics : Type := {
  g_width : Z;
  g_height : Z;
  pixels : list Z
}.

Definition createGraphics (w h : Z) : Graphics :=
  {| g_width := w; g_height := h;
     pixels := if (0 <? w) && (0 <? h)
               then replicate (Z.to_nat (4 * w * h)) 0 else [] |}.

(** [g.pixels[i] = v]: the value is converted to a byte; a write outside
    the array is ignored. *)
Definition setPixel (i : Z) (v : option number) (g : Graphics) : Graphics :=
  {| g_width := g_width g; g_height := g_height g;
     pixels := if i <? 0 then pixels g
               else <[Z.to_nat i := toUint8Clamp v]> (pixels g) |}.

(** The part of the host that can refuse a buffer: [loadPixels()] on the
    [p5.Graphics] that [createGraphics] made, [None] when it throws. *)
Record CanvasHost : Type := {
  loadPixels : Graphics -> option Graphics
}.

(** p5 on a browser canvas: [loadPixels] reads the canvas back, and the
    canvas refuses to hand out an area that is not positive. *)
Definition browserCanvas : CanvasHost :=
  {| loadPixels := fun g =>
       if (0 <? g_width g) && (0 <? g_height g) then Some g else None |}.

(** A host on which [loadPixels] always returns. *)
Definition deliveringCanvas : CanvasHost :=
  {| loadPixels := fun g => Some g |}.

(** p5's noise detail: the number of octaves and the falloff, set by
    [noiseDetail()], read by every call of [noise()], and left as they are
    by [noiseSeed()]. *)
Record NoiseDetail : Type := {
  octaves : Z;
  falloff : number
}.

(** The p5 library: its pure functions, for each noise detail in force. *)
Definition Library : Type := NoiseDetail -> P5.

(** The global state of the page: the noise detail with the rest. *)
Record Page : Type := {
  detail : NoiseDetail;
  world : World
}.

(** [const [r, g, b] = arr]: the element, or [undefined]. *)
Definition elem {A : Type} (arr : list A) (k : nat) : option A := arr !! k.

(** [GOOGLE_COLORS] of [GradientPresets.js], a module that is not part of
    the sources at hand: the four brand colours are taken as given. *)
Record GoogleColors : Type := {
  BLUE : list number;
  RED : list number;
  GREEN : list number;
  YELLOW : list number
}.

(** ** GradientCache.js *)

Module GradientCache.

Record t : Type := {
  p5 : P5;
  cacheSize : Z;
  noiseScale : number;
  controlPoints : Z;
  palette : list (list number);
  cacheTexture : option Graphics;
  cachePixels : option (list Z)
}.

Definition white : list number := [ofZ 255; ofZ 255; ofZ 255].

(** [this.palette[0] || [255, 255, 255]]: an array is truthy, even empty. *)
Definition fallback (this : t) : list number :=
  match palette this !! 0%nat with
  | Some c => c
  | None => white
  end.

(** [c[k]] handed to arithmetic: [undefined] there behaves as [NaN]. *)
Definition channel (c : list number) (k : nat) : number :=
  default NaN (c !! k).

Definition interpolateColor (this : t) (t0 : number) : list number :=
  if isNaN t0 then fallback this
  else
    let colorIndex := (t0 * ofZ (controlPoints this - 1))%js in
    let len := ofZ (Z.of_nat (length (palette this))) in
    let i1 := (Math_floor colorIndex %% len)%js in
    let i2 := ((i1 + ofZ 1) %% len)%js in
    let localT := (colorIndex - Math_floor colorIndex)%js in
    match get (palette this) i1, get (palette this) i2 with
    | Some c1, Some c2 =>
        if (length c1 <? 3)%nat || (length c2 <? 3)%nat then fallback this
        else
          [ p5_lerp (p5 this) (channel c1 0) (channel c2 0) localT;
            p5_lerp (p5 this) (channel c1 1) (channel c2 1) localT;
            p5_lerp (p5 this) (channel c1 2) (channel c2 2) localT ]
    | _, _ => fallback this
    end.

(** Body of the inner loop of [prebake] at column [x] of row [y]; [seeded]
    is the noise state that [noiseSeed] installed. *)
Definition bakePixel (this : t) (seeded : option number) (y x : Z)
    (tex : Graphics) : Graphics :=
  let noiseValue :=
    p5_noise (p5 this) seeded (ofZ x * noiseScale this)%js
             (ofZ y * noiseScale this)%js (ofZ 0) in
  let color := interpolateColor this noiseValue in
  let index := (x + y * cacheSize this) * 4 in
  setPixel (index + 3) (Some (ofZ 255))
    (setPixel (index + 2) (elem color 2)
      (setPixel (index + 1) (elem color 1)
        (setPixel (index + 0) (elem color 0) tex))).

Definition bakeRow (this : t) (seeded : option number) (tex : Graphics)
    (y : Z) : Graphics :=
  foldl (fun g x => bakePixel this seeded y x g) tex
        (seqZ 0 (cacheSize this)).

Definition prebake (seed : number) (this : t) (w : World) : t * World :=
  let tex0 := createGraphics (cacheSize this) (cacheSize this) in
  let w1 := noiseSeed seed w in
  let tex := foldl (bakeRow this (noiseSeeded w1)) tex0
                   (seqZ 0 (cacheSize this)) in
  ({| p5 := p5 this; cacheSize := cacheSize this;
      noiseScale := noiseScale this; controlPoints := controlPoints this;
      palette := palette this;
      cacheTexture := Some tex;
      cachePixels := Some (pixels tex) |}, w1).

(** [new GradientCache(p5Instance, cacheSize, palette, noiseScale,
    noiseSeed)]; a [palette] of [None] is [null]. *)
Definition new (GOOGLE_COLORS : GoogleColors) (p5Instance : P5)
    (cacheSize0 : Z) (palette0 : option (list (list number)))
    (noiseScale0 : number) (noiseSeed0 : number) (w : World) : t * World :=
  prebake noiseSeed0
    {| p5 := p5Instance;
       cacheSize := cacheSize0;
       noiseScale := noiseScale0;
       controlPoints := 20;
       palette := match palette0 with
                  | Some p => p
                  | None => [BLUE GOOGLE_COLORS; RED GOOGLE_COLORS;
                             GREEN GOOGLE_COLORS; YELLOW GOOGLE_COLORS]
                  end;
       cacheTexture := None;
       cachePixels := None |} w.

(** What a call of the constructor comes to: the object, an exception of
    the host gone through, or the rejection the specification names (no
    path of the code below produces the last one). *)
Inductive construction : Type :=
| Constructed (c : t)
| HostThrew
| InvalidDimensions.

(** [prebake] and the constructor on a host whose [loadPixels] may throw,
    in the order of the source: [createGraphics], [noiseSeed], then
    [loadPixels]; an exception leaves the constructor before any pixel is
    written and no object is returned.  [prebake] and [new] above are these
    on a host that delivers the pixel array. *)
Definition prebakeOn (host : CanvasHost) (seed : number) (this : t)
    (w : World) : construction * World :=
  let tex0 := createGraphics (cacheSize this) (cacheSize this) in
  let w1 := noiseSeed seed w in
  match loadPixels host tex0 with
  | None => (HostThrew, w1)
  | Some loaded =>
      let tex := foldl (bakeRow this (noiseSeeded w1)) loaded
                       (seqZ 0 (cacheSize this)) in
      (Constructed
         {| p5 := p5 this; cacheSize := cacheSize this;
            noiseScale := noiseScale this;
            controlPoints := controlPoints this;
            palette := palette this;
            cacheTexture := Some tex;
            cachePixels := Some (pixels tex) |}, w1)
  end.

Definition newOn (host : CanvasHost) (GOOGLE_COLORS : GoogleColors)
    (p5Instance : P5) (cacheSize0 : Z)
    (palette0 : option (list (list number)))
    (noiseScale0 : number) (noiseSeed0 : number) (w : World)
    : construction * World :=
  prebakeOn host noiseSeed0
    {| p5 := p5Instance;
       cacheSize := cacheSize0;
       noiseScale := noiseScale0;
       controlPoints := 20;
       palette := match palette0 with
                  | Some p => p
                  | None => [BLUE GOOGLE_COLORS; RED GOOGLE_COLORS;
                             GREEN GOOGLE_COLORS; YELLOW GOOGLE_COLORS]
                  end;
       cacheTexture := None;
       cachePixels := None |} w.

(** The cache coordinate of one screen coordinate:
    [Math.max(0, Math.min(cacheSize - 1, Math.floor((s * 0.5) % cacheSize)))]. *)
Definition cacheCoord (this : t) (s : number) : number :=
  let c := Math_floor ((s * Fin (1 # 2)) %% ofZ (cacheSize this))%js in
  Math_max (ofZ 0) (Math_min (ofZ (cacheSize this) - ofZ 1)%js c).

(** [this.cachePixels[i]], read back as a number. *)
Definition readPixel (px : list Z) (i : number) : option number :=
  ofZ <$> get px i.

Definition getColor (this : t) (screenX screenY : number)
    : completion (list (option number)) :=
  let x := cacheCoord this screenX in
  let y := cacheCoord this screenY in
  let index := ((x + y * ofZ (cacheSize this)) * ofZ 4)%js in
  match cachePixels this with
  | None => TypeError
  | Some px =>
      Return [ readPixel px (index + ofZ 0)%js;
               readPixel px (index + ofZ 1)%js;
               readPixel px (index + ofZ 2)%js ]
  end.

Definition getAnimatedColor (this : t) (screenX screenY timeOffset : number)
    : completion (list (option number)) :=
  getColor this screenX (screenY + timeOffset)%js.

Definition regenerate (newSeed : number) (this : t) (w : World) : t * World :=
  prebake newSeed this w.

Definition dispose (this : t) : t :=
  match cacheTexture this with
  | Some _ =>
      {| p5 := p5 this; cacheSize := cacheSize this;
         noiseScale := noiseScale this; controlPoints := controlPoints this;
         palette := palette this;
         cacheTexture := None; cachePixels := None |}
  | None => this
  end.

(** The lookups a client can issue on a live cache, and one call of each
    on the object and the global state: both are handed back as the method
    left them. *)
Inductive Lookup : Type :=
| GetColor (screenX screenY : number)
| GetAnimatedColor (screenX screenY timeOffset : number).

Definition call (l : Lookup) (st : t * World)
    : completion (list (option number)) * (t * World) :=
  match l with
  | GetColor x y => (getColor (fst st) x y, st)
  | GetAnimatedColor x y o => (getAnimatedColor (fst st) x y o, st)
  end.

Definition calls (ls : list Lookup) (st : t * World) : t * World :=
  foldl (fun s l => snd (call l s)) st ls.

End GradientCache.

(** ** SimpleGradientRenderer.js *)

(** Computations on the global state that may throw. *)
Definition M (A : Type) : Type := World -> completion A * World.

Definition ret {A : Type} (a : A) : M A := fun w => (Return a, w).

Definition bind {A B : Type} (m : M A) (k : A -> M B) : M B :=
  fun w =>
    match m w with
    | (Return a, w') => k a w'
    | (TypeError, w') => (TypeError, w')
    end.

Definition throw {A : Type} : M A := fun w => (TypeError, w).

Definition emit (c : DrawCmd) : M unit := fun w => (Return tt, draw c w).

Declare Scope m_scope.
Delimit Scope m_scope with M.
Notation "x <- m ;; k" := (bind m (fun x => k))
  (at level 100, m at next level, right associativity) : m_scope.
Notation "m ;; k" := (bind m (fun _ => k))
  (at level 100, right associativity) : m_scope.

(** [for (let i = 0; i < n; i++) body(i)] runs [body] on [seqZ 0 n]. *)
Fixpoint forEach {A : Type} (l : list A) (body : A -> M unit) : M unit :=
  match l with
  | [] => ret tt
  | a :: l' => (body a ;; forEach l' body)%M
  end.

(** The part of a [GoLEngine] the renderer reads: [current] is an array of
    [cols] columns of [rows] cells. *)
Record GoLEngine : Type := {
  cols : Z;
  rows : Z;
  current : list (list Z)
}.

Module SimpleGradientRenderer.

Definition DEAD : Z := 0.
Definition ALIVE : Z := 1.

(** The [options] argument of the constructor; [None] is an absent key. *)
Record Options : Type := {
  opt_useCache : option bool;
  opt_cacheSize : option Z
}.

Record t : Type := {
  p5 : P5;
  animationOffset : number;
  palette : list (list number);
  controlPoints : Z;
  useCache : bool;
  gradientCache : option GradientCache.t
}.

Definition new (GOOGLE_COLORS : GoogleColors) (p5Instance : P5)
    (options : Options) (w : World) : t * World :=
  let palette0 := [BLUE GOOGLE_COLORS; RED GOOGLE_COLORS;
                   GREEN GOOGLE_COLORS; YELLOW GOOGLE_COLORS] in
  let useCache0 := default true (opt_useCache options) in
  if useCache0 then
    (* options.cacheSize || 512 : an absent key and 0 both give 512 *)
    let size := match opt_cacheSize options with
                | Some 0 | None => 512
                | Some n => n
                end in
    let '(cache, w') :=
      GradientCache.new GOOGLE_COLORS p5Instance size (Some palette0)
                        (Fin (3 # 1000)) (ofZ 12345) w in
    ({| p5 := p5Instance; animationOffset := ofZ 0; palette := palette0;
        controlPoints := 20; useCache := useCache0;
        gradientCache := Some cache |}, w')
  else
    ({| p5 := p5Instance; animationOffset := ofZ 0; palette := palette0;
        controlPoints := 20; useCache := useCache0;
        gradientCache := None |}, w).

Definition fallback (this : t) : list number :=
  match palette this !! 0%nat with
  | Some c => c
  | None => GradientCache.white
  end.

(** The runtime path.  Colours are arrays of numbers here, so the test
    [typeof c1[0] !== 'number'] of the source is settled by the length
    test before it. *)
Definition _getGradientColorRuntime (this : t) (seeded : option number)
    (screenX screenY : number) : list number :=
  let noiseScale := Fin (2 # 10000) in
  let noiseValue :=
    p5_noise (p5 this) seeded (screenX * noiseScale)%js
             (screenY * noiseScale)%js (animationOffset this * ofZ 2)%js in
  if isNaN noiseValue then fallback this
  else
    let t0 := noiseValue in
    let colorIndex := (t0 * ofZ (controlPoints this - 1))%js in
    let len := ofZ (Z.of_nat (length (palette this))) in
    let i1 := (Math_floor colorIndex %% len)%js in
    let i2 := ((i1 + ofZ 1) %% len)%js in
    let localT := (colorIndex - Math_floor colorIndex)%js in
    match get (palette this) i1, get (palette this) i2 with
    | Some c1, Some c2 =>
        if (length c1 <? 3)%nat || (length c2 <? 3)%nat then fallback this
        else
          [ p5_lerp (p5 this) (GradientCache.channel c1 0)
                    (GradientCache.channel c2 0) localT;
            p5_lerp (p5 this) (GradientCache.channel c1 1)
                    (GradientCache.channel c2 1) localT;
            p5_lerp (p5 this) (GradientCache.channel c1 2)
                    (GradientCache.channel c2 2) localT ]
    | _, _ => fallback this
    end.

Definition getGradientColor (this : t) (screenX screenY : number)
    : M (list (option number)) :=
  fun w =>
    match useCache this, gradientCache this with
    | true, Some cache =>
        (GradientCache.getAnimatedColor cache screenX screenY
           (animationOffset this * ofZ 1)%js, w)
    | _, _ =>
        (Return (Some <$> _getGradientColorRuntime this (noiseSeeded w)
                                                   screenX screenY), w)
    end.

(** [engine.current[gx][gy] === ALIVE]; reading a column that does not
    exist throws. *)
Definition isAlive (engine : GoLEngine) (gx gy : Z) : M bool :=
  match current engine !! Z.to_nat gx with
  | Some column =>
      ret (match column !! Z.to_nat gy with
           | Some c => c =? ALIVE
           | None => false
           end)
  | None => throw
  end.

(** Body of the inner loop of [renderMaskedGrid]. *)
Definition renderCell (this : t) (engine : GoLEngine)
    (x y cellSize : number) (gx gy : Z) : M unit :=
  (alive <- isAlive engine gx gy ;;
   if alive then
     let px := (x + ofZ gx * cellSize)%js in
     let py := (y + ofZ gy * cellSize)%js in
     color <- getGradientColor this (px + cellSize / ofZ 2)%js
                                    (py + cellSize / ofZ 2)%js ;;
     emit (Fill (mjoin (elem color 0)) (mjoin (elem color 1))
                (mjoin (elem color 2))) ;;
     emit (Rect px py cellSize cellSize)
   else ret tt)%M.

(** The fifth argument, [gradientConfig], is not used by the source. *)
Definition renderMaskedGrid (this : t) (engine : GoLEngine)
    (x y cellSize : number) : M unit :=
  (emit Push ;;
   emit NoStroke ;;
   forEach (seqZ 0 (cols engine)) (fun gx =>
     forEach (seqZ 0 (rows engine)) (fun gy =>
       renderCell this engine x y cellSize gx gy)) ;;
   emit Pop)%M.

(** The [config] argument of [createGradient]: only its palette is read. *)
Record GradientConfig : Type := {
  cfg_palette : list (list number)
}.

(** The [p5.Graphics] that [createGradient] returns, with the drawing calls
    made on it, in order; turning them into pixels is the host's work. *)
Record GradientImage : Type := {
  image : Graphics;
  imageCalls : list DrawCmd
}.

(** Body of the loop of [createGradient] at row [y]: the two drawing calls
    of the row; [c1[0]] on a colour that does not exist throws. *)
Definition gradientRow (this : t) (palette0 : list (list number))
    (width height y : Z) : completion (list DrawCmd) :=
  let t0 := (ofZ y / ofZ height)%js in
  let colorCount := ofZ (Z.of_nat (length palette0)) in
  let index := (t0 * (colorCount - ofZ 1))%js in
  let i1 := Math_floor index in
  let i2 := Math_min (i1 + ofZ 1)%js (colorCount - ofZ 1)%js in
  let localT := (index - i1)%js in
  match get palette0 i1, get palette0 i2 with
  | Some c1, Some c2 =>
      let r := p5_lerp (p5 this) (GradientCache.channel c1 0)
                       (GradientCache.channel c2 0) localT in
      let g := p5_lerp (p5 this) (GradientCache.channel c1 1)
                       (GradientCache.channel c2 1) localT in
      let b := p5_lerp (p5 this) (GradientCache.channel c1 2)
                       (GradientCache.channel c2 2) localT in
      Return [ Fill (Some r) (Some g) (Some b);
               Rect (ofZ 0) (ofZ y) (ofZ width) (ofZ 1) ]
  | _, _ => TypeError
  end.

(** The loop of [createGradient] over the rows [ys]: it stops at the first
    row that throws. *)
Fixpoint gradientRows (this : t) (palette0 : list (list number))
    (width height : Z) (ys : list Z) : completion (list DrawCmd) :=
  match ys with
  | [] => Return []
  | y :: ys' =>
      match gradientRow this palette0 width height y with
      | Return row =>
          match gradientRows this palette0 width height ys' with
          | Return rest => Return (row ++ rest)
          | TypeError => TypeError
          end
      | TypeError => TypeError
      end
  end.

Definition createGradient (this : t) (width height : Z)
    (config : GradientConfig) : completion GradientImage :=
  match gradientRows this (cfg_palette config) width height (seqZ 0 height) with
  | Return rows0 =>
      Return {| image := createGraphics width height;
                imageCalls := NoStroke :: rows0 |}
  | TypeError => TypeError
  end.

(** [updateAnimation]: the increment of [animationOffset] is commented out
    in the source; what is left sets the window flag on the first call. *)
Definition updateAnimation (this : t) (w : World) : t * World :=
  (this,
   if _debugAnimationDisabled w then w
   else {| noiseSeeded := noiseSeeded w;
           _debugAnimationDisabled := true;
           drawn := drawn w |}).

Definition dispose (this : t) : t :=
  match gradientCache this with
  | Some cache =>
      {| p5 := p5 this; animationOffset := animationOffset this;
         palette := palette this; controlPoints := controlPoints this;
         useCache := useCache this; gradientCache := None |}
  | None => this
  end.

End SimpleGradientRenderer.

(** ** The palette interpolation as the specification words it

    "Piecewise-linear interpolation across the palette, treating the
    palette as evenly spaced control points over [0,1], wrapping at the
    ends."  With [n] palette colours there are two ways to space them
    evenly and wrap; both are written out, to be compared with
    [GradientCache.interpolateColor]. *)

(** Linear interpolation between the palette colours [i1] and [i1 + 1]
    (the last wrapping to the first) at fraction [localT]. *)
Definition specSegment (host : P5) (palette : list (list number))
    (i1 : Z) (localT : number) : list number :=
  let n := Z.of_nat (length palette) in
  let c1 := default [] (palette !! Z.to_nat (i1 mod n)) in
  let c2 := default [] (palette !! Z.to_nat ((i1 + 1) mod n)) in
  [ p5_lerp host (GradientCache.channel c1 0) (GradientCache.channel c2 0) localT;
    p5_lerp host (GradientCache.channel c1 1) (GradientCache.channel c2 1) localT;
    p5_lerp host (GradientCache.channel c1 2) (GradientCache.channel c2 2) localT ].

(** Control point [k] sits at [k / n]; the segment after the last colour
    leads back to the first and ends at 1. *)
Definition specInterpolateCyclic (host : P5) (palette : list (list number))
    (t0 : Q) : list number :=
  let pos := (t0 * inject_Z (Z.of_nat (length palette)))%Q in
  specSegment host palette (Qfloor pos) (Fin (Qred (pos - inject_Z (Qfloor pos)))).

(** Control point [k] sits at [k / (n - 1)]: the first colour at 0, the last
    at 1, where the pair wraps to the first colour. *)
Definition specInterpolateEnds (host : P5) (palette : list (list number))
    (t0 : Q) : list number :=
  let pos := (t0 * inject_Z (Z.of_nat (length palette) - 1))%Q in
  specSegment host palette (Qfloor pos) (Fin (Qred (pos - inject_Z (Qfloor pos)))).

(** Same colour, component by component. *)
Fixpoint sameColor (a b : list number) : bool :=
  match a, b with
  | [], [] => true
  | x :: a', y :: b' => JS.eqb x y && sameColor a' b'
  | _, _ => false
  end.

(** ** The constructor as the specification words it

    "[size <= 0] fails fast at construction", with an [InvalidDimensions]
    error: the size is checked before anything else, and a rejected call
    has done nothing. *)
Definition specNew (host : CanvasHost) (GOOGLE_COLORS : GoogleColors)
    (p5Instance : P5) (cacheSize0 : Z)
    (palette0 : option (list (list number)))
    (noiseScale0 : number) (noiseSeed0 : number) (w : World)
    : GradientCache.construction * World :=
  if cacheSize0 <=? 0 then (GradientCache.InvalidDimensions, w)
  else GradientCache.newOn host GOOGLE_COLORS p5Instance cacheSize0 palette0
                           noiseScale0 noiseSeed0 w.

(** ** Notions used to state the properties *)

(** The four bytes [prebake] stores for the pixel of column [x], row [y]:
    the converted channels of the interpolated colour, then full opacity. *)
Definition texel (this : GradientCache.t) (seeded : option number)
    (y x : Z) : list Z :=
  let color :=
    GradientCache.interpolateColor this
      (p5_noise (GradientCache.p5 this) seeded
                (ofZ x * GradientCache.noiseScale this)%js
                (ofZ y * GradientCache.noiseScale this)%js (ofZ 0)) in
  [ toUint8Clamp (elem color 0); toUint8Clamp (elem color 1);
    toUint8Clamp (elem color 2); 255 ].

(** A cache that holds a texture of its own positive size. *)
Definition baked (c : GradientCache.t) : bool :=
  (0 <? GradientCache.cacheSize c)
  && match GradientCache.cachePixels c with
     | Some px =>
         (length px =? Z.to_nat (4 * GradientCache.cacheSize c
                                   * GradientCache.cacheSize c))%nat
     | None => false
     end.

(** The first [n] pixels of a texture, in row-major order, hold what
    [prebake] computes for them. *)
Definition bakedUpTo (this : GradientCache.t) (seeded : option number)
    (n : Z) (tex : Graphics) : Prop :=
  length (pixels tex)
    = Z.to_nat (4 * GradientCache.cacheSize this * GradientCache.cacheSize this)
  /\ forall p k, 0 <= p < n -> 0 <= k < 4 ->
       pixels tex !! Z.to_nat (4 * p + k)
       = texel this seeded (p / GradientCache.cacheSize this)
               (p mod GradientCache.cacheSize this) !! Z.to_nat k.

(** The four bytes a pixel buffer of a [size]-wide texture holds for the
    pixel of column [x], row [y]. *)
Definition storedAt (px : list Z) (size x y : Z) (rgba : list Z) : Prop :=
  forall k, 0 <= k < 4 ->
    px !! Z.to_nat (4 * (x + y * size) + k) = rgba !! Z.to_nat k.

(** A palette with at least one colour, each colour with at least three
    channels. *)
Definition wellFormedPalette (p : list (list number)) : bool :=
  match p with
  | [] => false
  | _ => forallb (fun col => (3 <=? length col)%nat) p
  end.

(** The world after more drawing calls. *)
Definition emitAll (cmds : list DrawCmd) (w : World) : World :=
  {| noiseSeeded := noiseSeeded w;
     _debugAnimationDisabled := _debugAnimationDisabled w;
     drawn := drawn w ++ cmds |}.

(** An engine whose [current] buffer has [cols] columns of [rows] cells. *)
Definition shaped (engine : GoLEngine) : bool :=
  (0 <=? cols engine) && (0 <=? rows engine)
  && (length (current engine) =? Z.to_nat (cols engine))%nat
  && forallb (fun column => (length column =? Z.to_nat (rows engine))%nat)
             (current engine).

(** The cell [(gx, gy)] of the current buffer is alive. *)
Definition aliveCell (engine : GoLEngine) (gx gy : Z) : bool :=
  match current engine !! Z.to_nat gx with
  | Some column =>
      match column !! Z.to_nat gy with
      | Some c => c =? SimpleGradientRenderer.ALIVE
      | None => false
      end
  | None => false
  end.

(** The cells of the grid, column after column. *)
Definition gridCells (engine : GoLEngine) : list (Z * Z) :=
  seqZ 0 (cols engine) ≫= fun gx =>
  seqZ 0 (rows engine) ≫= fun gy => [(gx, gy)].

(** A renderer whose colour lookups cannot throw: it samples a cache that
    holds its pixels, or the runtime noise. *)
Definition usable (r : SimpleGradientRenderer.t) : bool :=
  match SimpleGradientRenderer.useCache r,
        SimpleGradientRenderer.gradientCache r with
  | true, Some cache =>
      match GradientCache.cachePixels cache with
      | Some _ => true
      | None => false
      end
  | _, _ => true
  end.

(** The gradient colour at a screen point, in a given global state. *)
Definition gradientAt (r : SimpleGradientRenderer.t) (w : World)
    (sx sy : number) : list (option number) :=
  match fst (SimpleGradientRenderer.getGradientColor r sx sy w) with
  | Return color => color
  | TypeError => []
  end.

(** What the compositor is to draw for one cell: nothing for a dead cell;
    for an alive cell, a fill with the gradient colour at the centre of the
    cell, then the square of the cell. *)
Definition cellCommands (r : SimpleGradientRenderer.t) (w : World)
    (engine : GoLEngine) (x y cellSize : number) (cell : Z * Z)
    : list DrawCmd :=
  let '(gx, gy) := cell in
  if aliveCell engine gx gy then
    let px := (x + ofZ gx * cellSize)%js in
    let py := (y + ofZ gy * cellSize)%js in
    let color := gradientAt r w (px + cellSize / ofZ 2)%js
                                (py + cellSize / ofZ 2)%js in
    [ Fill (mjoin (color !! 0%nat)) (mjoin (color !! 1%nat))
           (mjoin (color !! 2%nat));
      Rect px py cellSize cellSize ]
  else [].

Definition isRect (c : DrawCmd) : bool :=
  match c with Rect _ _ _ _ => true | _ => false end.

(** [n] frames, each ending with a call of [updateAnimation]. *)
Definition frames (n : nat) (st : SimpleGradientRenderer.t * World)
    : SimpleGradientRenderer.t * World :=
  Nat.iter n (fun s => SimpleGradientRenderer.updateAnimation (fst s) (snd s)) st.

(** A number is finite and between [lo] and [hi]. *)
Definition within (lo hi : Q) (v : number) : bool :=
  match v with
  | Fin q => Qle_bool lo q && Qle_bool q hi
  | NaN => false
  end.

(** The channels of a colour, and of all colours of a palette, are finite
    numbers between [lo] and [hi]. *)
Definition channelsWithin (lo hi : Q) (color : list number) : bool :=
  forallb (within lo hi) color.

Definition paletteWithin (lo hi : Q) (p : list (list number)) : bool :=
  forallb (channelsWithin lo hi) p.

(** The first three channels of a colour, [NaN] standing for a missing
    one. *)
Definition rgbOf (color : list number) : list number :=
  [ GradientCache.channel color 0; GradientCache.channel color 1;
    GradientCache.channel color 2 ].

(** The three bytes a lookup returns, as JavaScript values. *)
Definition asTriple (rgba : list Z) : list (option number) :=
  (fun b => Some (ofZ b)) <$> take 3 rgba.

(** The two drawing calls [createGradient] makes for a row of colour
    [color]. *)
Definition rowCalls (color : list number) (width y : Z) : list DrawCmd :=
  [ Fill (color !! 0%nat) (color !! 1%nat) (color !! 2%nat);
    Rect (ofZ 0) (ofZ y) (ofZ width) (ofZ 1) ].

(** A computation only adds drawing calls, none of them [pop]. *)
Definition addsNoPop (m : M unit) : Prop :=
  forall w, exists cs, snd (m w) = emitAll cs w /\ Pop ∉ cs.

(** ** Concrete hosts and objects used to evaluate the code *)

(** A host whose "noise" is the first sample coordinate, whatever the seed,
    and whose [lerp] is p5's. *)
Definition rampP5 : P5 :=
  {| p5_noise := fun _ x _ _ => x; p5_lerp := lerp |}.

(** A host whose noise is not a number at the origin and 0 elsewhere. *)
Definition holeP5 : P5 :=
  {| p5_noise := fun _ x y _ =>
       if JS.eqb x (ofZ 0) && JS.eqb y (ofZ 0) then NaN else ofZ 0;
     p5_lerp := lerp |}.

Definition rgb (r g b : Z) : list number := [ofZ r; ofZ g; ofZ b].

(** Four colours to evaluate with; no theorem depends on their values. *)
Definition googleColors : GoogleColors :=
  {| BLUE := rgb 66 133 244; RED := rgb 234 67 53;
     GREEN := rgb 52 168 83; YELLOW := rgb 251 188 4 |}.

Definition world0 : World :=
  {| noiseSeeded := None; _debugAnimationDisabled := false; drawn := [] |}.

(** [new GradientCache(p5, 4, null, 0.25, 12345)] on the ramp host. *)
Definition cache4 : GradientCache.t :=
  fst (GradientCache.new googleColors rampP5 4 None (Fin (1 # 4)) (ofZ 12345) world0).

(** [new GradientCache(p5, 2, null, 0.25, 7)] on the host with a NaN sample. *)
Definition cacheHole : GradientCache.t :=
  fst (GradientCache.new googleColors holeP5 2 None (Fin (1 # 4)) (ofZ 7) world0).

(** A 3 x 2 engine: column 0 is [alive, dead], column 1 is [dead, dead],
    column 2 is [alive, alive]. *)
Definition engine32 : GoLEngine :=
  {| cols := 3; rows := 2; current := [[1; 0]; [0; 0]; [1; 1]] |}.

(** [new SimpleGradientRenderer(p5, { cacheSize: 4 })]. *)
Definition renderer4 : SimpleGradientRenderer.t :=
  fst (SimpleGradientRenderer.new googleColors rampP5
         {| SimpleGradientRenderer.opt_useCache := None;
            SimpleGradientRenderer.opt_cacheSize := Some 4 |} world0).

(** [new SimpleGradientRenderer(p5, { useCache: false })]. *)
Definition rendererRuntime : SimpleGradientRenderer.t :=
  fst (SimpleGradientRenderer.new googleColors rampP5
         {| SimpleGradientRenderer.opt_useCache := Some false;
            SimpleGradientRenderer.opt_cacheSize := None |} world0).


(** A 2 x 1 engine whose buffer lacks its second column. *)
Definition engineShort : GoLEngine :=
  {| cols := 2; rows := 1; current := [[1]] |}.

(** A cache like [cache4] with an empty palette. *)
Definition cacheNoPalette : GradientCache.t :=
  fst (GradientCache.new googleColors rampP5 4 (Some []) (Fin (1 # 4)) (ofZ 12345) world0).

Definition googleConfig : SimpleGradientRenderer.GradientConfig :=
  {| SimpleGradientRenderer.cfg_palette :=
       [BLUE googleColors; RED googleColors; GREEN googleColors;
        YELLOW googleColors] |}.

(** A library whose "noise" is the first sample coordinate times the
    falloff in force. *)
Definition falloffLibrary : Library :=
  fun d => {| p5_noise := fun _ x _ _ => (x * falloff d)%js; p5_lerp := lerp |}.

Definition detailHalf : NoiseDetail := {| octaves := 4; falloff := Fin (1 # 2) |}.
Definition detailQuarter : NoiseDetail := {| octaves := 4; falloff := Fin (1 # 4) |}.

(** Two pages with the same noise detail and nothing else in common. *)
Definition pageFresh : Page := {| detail := detailHalf; world := world0 |}.
Definition pageUsed : Page :=
  {| detail := detailHalf;
     world := {| noiseSeeded := Some (ofZ 99); _debugAnimationDisabled := true;
                 drawn := [Push; Pop] |} |}.

(** ** The model on concrete inputs *)

Example rem_takes_the_sign_of_the_dividend :
  (Fin (-7 # 2) %% ofZ 2)%js = Fin (-3 # 2)
  /\ (Fin (7 # 2) %% ofZ 2)%js = Fin (3 # 2)
  /\ (Fin (7 # 2) %% ofZ 0)%js = NaN.
Proof. repeat split. Qed.

Example toUint8Clamp_rounds_and_clamps :
  toUint8Clamp <$> [Some (Fin (5 # 2)); Some (Fin (7 # 2)); Some (ofZ 300);
                    Some (ofZ (-4)); Some NaN; None]
  = [2; 4; 255; 0; 0; 0].
Proof. reflexivity. Qed.

Example cache4_first_row :
  take 16 <$> GradientCache.cachePixels cache4
  = Some [66; 133; 244; 255; 192; 84; 101; 255;
          143; 118; 68; 255; 102; 173; 63; 255].
Proof. vm_compute. reflexivity. Qed.

Example cache4_columns :
  (fun x => GradientCache.getColor cache4 (ofZ x) (ofZ 0)) <$> [0; 2; 4; 6; 8; -2]
  = Return <$> [ [Some (ofZ 66); Some (ofZ 133); Some (ofZ 244)];
                 [Some (ofZ 192); Some (ofZ 84); Some (ofZ 101)];
                 [Some (ofZ 143); Some (ofZ 118); Some (ofZ 68)];
                 [Some (ofZ 102); Some (ofZ 173); Some (ofZ 63)];
                 [Some (ofZ 66); Some (ofZ 133); Some (ofZ 244)];
                 [Some (ofZ 66); Some (ofZ 133); Some (ofZ 244)] ].
Proof. vm_compute. reflexivity. Qed.

Example renderer4_draws :
  drawn (snd (SimpleGradientRenderer.renderMaskedGrid renderer4 engine32
                (ofZ 10) (ofZ 20) (ofZ 3) world0))
  = [ Push; NoStroke;
      Fill (Some (ofZ 76)) (Some (ofZ 129)) (Some (ofZ 233));
      Rect (ofZ 10) (ofZ 20) (ofZ 3) (ofZ 3);
      Fill (Some (ofZ 66)) (Some (ofZ 133)) (Some (ofZ 244));
      Rect (ofZ 16) (ofZ 20) (ofZ 3) (ofZ 3);
      Fill (Some (ofZ 66)) (Some (ofZ 133)) (Some (ofZ 244));
      Rect (ofZ 16) (ofZ 23) (ofZ 3) (ofZ 3);
      Pop ].
Proof. vm_compute. reflexivity. Qed.

Example rendererRuntime_draws :
  isRect <$> drawn (snd (SimpleGradientRenderer.renderMaskedGrid rendererRuntime
                           engine32 (ofZ 10) (ofZ 20) (ofZ 3) world0))
  = [false; false; false; true; false; true; false; true; false].
Proof. vm_compute. reflexivity. Qed.

(** ** Arithmetic of the number model *)

Lemma Qred_inject_Z (z : Z) : Qred (inject_Z z) = inject_Z z.
Proof.
  unfold Qred, inject_Z.
  pose proof (Z.ggcd_gcd z 1) as Hg.
  pose proof (Z.ggcd_correct_divisors z 1) as Hd.
  destruct (Z.ggcd z 1) as [g [a b]]; simpl in *.
  rewrite Z.gcd_1_r in Hg. subst g.
  destruct Hd as [Ha Hb].
  replace a with z by lia. replace b with 1 by lia. reflexivity.
Qed.

Lemma ofZ_add (a b : Z) : (ofZ a + ofZ b)%js = ofZ (a + b).
Proof.
  unfold ofZ, add, Qplus'. f_equal.
  rewrite <- inject_Z_plus. apply Qred_inject_Z.
Qed.

Lemma ofZ_sub (a b : Z) : (ofZ a - ofZ b)%js = ofZ (a - b).
Proof.
  unfold ofZ, sub, Qminus'. f_equal.
  unfold Qminus. rewrite <- inject_Z_opp, <- inject_Z_plus.
  apply Qred_inject_Z.
Qed.

Lemma ofZ_mul (a b : Z) : (ofZ a * ofZ b)%js = ofZ (a * b).
Proof.
  unfold ofZ, mul, Qmult'. f_equal.
  rewrite <- inject_Z_mult. apply Qred_inject_Z.
Qed.

Lemma Qle_bool_inject_Z (a b : Z) :
  Qle_bool (inject_Z a) (inject_Z b) = (a <=? b).
Proof.
  unfold Qle_bool, inject_Z; simpl. rewrite !Z.mul_1_r. reflexivity.
Qed.

Lemma Math_min_ofZ (a b : Z) : Math_min (ofZ a) (ofZ b) = ofZ (Z.min a b).
Proof.
  unfold Math_min, ofZ. rewrite Qle_bool_inject_Z.
  destruct (Z.leb_spec a b); f_equal; f_equal; lia.
Qed.

Lemma Math_max_ofZ (a b : Z) : Math_max (ofZ a) (ofZ b) = ofZ (Z.max a b).
Proof.
  unfold Math_max, ofZ. rewrite Qle_bool_inject_Z.
  destruct (Z.leb_spec a b); f_equal; f_equal; lia.
Qed.

(** On integer-valued numbers the operations are the integer ones. *)
Create Rewrite HintDb js_int.
#[local] Hint Rewrite ofZ_add ofZ_sub ofZ_mul Math_min_ofZ Math_max_ofZ : js_int.

Lemma index_ofZ (z : Z) :
  JS.index (ofZ z) = if 0 <=? z then Some (Z.to_nat z) else None.
Proof.
  unfold JS.index, ofZ. rewrite Qfloor_Z.
  assert (Qeq_bool (inject_Z z) (inject_Z z) = true) as ->
    by (apply Qeq_bool_iff; reflexivity).
  reflexivity.
Qed.

Lemma get_ofZ {A : Type} (l : list A) (z : Z) :
  0 <= z -> get l (ofZ z) = l !! Z.to_nat z.
Proof.
  intros Hz. unfold get. rewrite index_ofZ.
  destruct (Z.leb_spec 0 z); [reflexivity | lia].
Qed.

(** The floor is the only integer within one below. *)
Lemma Qfloor_unique (q : Q) (z : Z) :
  (inject_Z z <= q)%Q -> (q < inject_Z (z + 1))%Q -> Qfloor q = z.
Proof.
  intros Hlo Hhi.
  assert (z <= Qfloor q).
  { rewrite <- (Qfloor_Z z). apply Qfloor_resp_le. exact Hlo. }
  assert (Qfloor q < z + 1).
  { rewrite Zlt_Qlt. eapply Qle_lt_trans; [apply Qfloor_le | exact Hhi]. }
  lia.
Qed.

Lemma Qfloor_bounds (q : Q) :
  (inject_Z (Qfloor q) <= q)%Q /\ (q < inject_Z (Qfloor q + 1))%Q.
Proof. split; [apply Qfloor_le | apply Qlt_floor]. Qed.

Lemma Qfloor_plus_Z (q : Q) (z : Z) : Qfloor (q + inject_Z z) = Qfloor q + z.
Proof.
  destruct (Qfloor_bounds q) as [Hlo Hhi].
  apply Qfloor_unique.
  - rewrite inject_Z_plus. apply Qplus_le_l. exact Hlo.
  - replace (Qfloor q + z + 1) with ((Qfloor q + 1) + z) by lia.
    rewrite inject_Z_plus. apply Qplus_lt_l. exact Hhi.
Qed.

Lemma Qfloor_Qred (q : Q) : Qfloor (Qred q) = Qfloor q.
Proof. apply Qfloor_comp. apply Qred_correct. Qed.

Lemma Qtrunc_nonneg (q : Q) : (0 <= q)%Q -> Qtrunc q = Qfloor q.
Proof.
  destruct q as [n d]. unfold Qle, Qtrunc, Qfloor; simpl. intros Hn.
  apply Z.quot_div_nonneg; lia.
Qed.

Lemma Qtrunc_nonpos (q : Q) : (q <= 0)%Q -> Qtrunc q = - Qfloor (- q).
Proof.
  destruct q as [n d]. unfold Qle, Qtrunc, Qfloor, Qopp; simpl. intros Hn.
  rewrite <- (Z.opp_involutive n) at 1.
  rewrite Z.quot_opp_l by lia.
  f_equal. apply Z.quot_div_nonneg; lia.
Qed.

(** ** The cache coordinate of a screen coordinate *)

(** The rational remainder computed by [%]. *)
Lemma rem_Fin (x : Q) (s : Z) :
  s <> 0 ->
  (Fin x %% ofZ s)%js
  = Fin (Qred (x - inject_Z s * inject_Z (Qtrunc (x / inject_Z s)))).
Proof.
  intros Hs. unfold rem, ofZ.
  destruct (Qeq_bool (inject_Z s) 0) eqn:E; [| reflexivity].
  apply Qeq_bool_iff in E. unfold Qeq, inject_Z in E; simpl in E. lia.
Qed.

Lemma rem_Fin_zero (x : Q) : (Fin x %% ofZ 0)%js = NaN.
Proof. reflexivity. Qed.

Lemma Qle_floor_Z (q : Q) (z : Z) : (inject_Z z <= q)%Q -> z <= Qfloor q.
Proof.
  intros H. rewrite <- (Qfloor_Z z). apply Qfloor_resp_le. exact H.
Qed.

Lemma Qfloor_lt_Z (q : Q) (z : Z) : (q < inject_Z z)%Q -> Qfloor q < z.
Proof.
  intros H. rewrite Zlt_Qlt.
  eapply Qle_lt_trans; [apply Qfloor_le | exact H].
Qed.

Lemma Qfloor_le_Z (q : Q) (z : Z) : (q <= inject_Z z)%Q -> Qfloor q <= z.
Proof.
  intros H. rewrite Zle_Qle.
  eapply Qle_trans; [apply Qfloor_le | exact H].
Qed.

Lemma Qdiv_mult_cancel (h : Q) (s : Z) :
  0 < s -> (h / inject_Z s * inject_Z s == h)%Q.
Proof.
  intros Hs. rewrite Qmult_comm. apply Qmult_div_r.
  unfold Qeq, inject_Z; simpl. lia.
Qed.

Lemma inject_Z_pos (s : Z) : 0 < s -> (0 < inject_Z s)%Q.
Proof. intros Hs. change 0%Q with (inject_Z 0). rewrite <- Zlt_Qlt. exact Hs. Qed.

(** For a non-negative dividend, the floor of the remainder is the
    integer remainder of the floor. *)
Lemma floor_rem_nonneg (h : Q) (s : Z) :
  0 < s -> (0 <= h)%Q ->
  Qfloor (h - inject_Z s * inject_Z (Qtrunc (h / inject_Z s)))
  = Qfloor h mod s.
Proof.
  intros Hs Hh.
  assert (0 <= h / inject_Z s)%Q as Hq.
  { apply Qle_shift_div_l; [apply inject_Z_pos; exact Hs |].
    rewrite Qmult_0_l. exact Hh. }
  rewrite (Qtrunc_nonneg _ Hq).
  set (m := Qfloor (h / inject_Z s)).
  assert (Qfloor (h - inject_Z s * inject_Z m) = Qfloor h - s * m) as ->.
  { replace (Qfloor h - s * m) with (Qfloor h + - (s * m)) by lia.
    rewrite <- Qfloor_plus_Z. apply Qfloor_comp.
    rewrite inject_Z_opp, inject_Z_mult. reflexivity. }
  destruct (Qfloor_bounds (h / inject_Z s)) as [Hlo Hhi]. fold m in Hlo, Hhi.
  assert (s * m <= Qfloor h).
  { apply Qle_floor_Z. rewrite inject_Z_mult, Qmult_comm.
    rewrite <- (Qdiv_mult_cancel h s Hs).
    apply Qmult_le_compat_r; [exact Hlo |].
    apply Qlt_le_weak, inject_Z_pos; exact Hs. }
  assert (Qfloor h < s * (m + 1)).
  { apply Qfloor_lt_Z. rewrite inject_Z_mult, Qmult_comm.
    rewrite <- (Qdiv_mult_cancel h s Hs) at 1.
    apply Qmult_lt_compat_r; [apply inject_Z_pos; exact Hs | exact Hhi]. }
  apply (Z.mod_unique_pos _ _ m); lia.
Qed.

(** For a non-positive dividend the remainder is non-positive. *)
Lemma floor_rem_nonpos (h : Q) (s : Z) :
  0 < s -> (h <= 0)%Q ->
  Qfloor (h - inject_Z s * inject_Z (Qtrunc (h / inject_Z s))) <= 0.
Proof.
  intros Hs Hh.
  assert (h / inject_Z s <= 0)%Q as Hq.
  { apply Qle_shift_div_r; [apply inject_Z_pos; exact Hs |].
    rewrite Qmult_0_l. exact Hh. }
  rewrite (Qtrunc_nonpos _ Hq).
  set (m := Qfloor (- (h / inject_Z s))).
  destruct (Qfloor_bounds (- (h / inject_Z s))) as [Hlo _]. fold m in Hlo.
  apply Qfloor_le_Z. change (inject_Z 0) with 0%Q.
  assert (inject_Z m * inject_Z s <= - h)%Q as Hm.
  { rewrite <- (Qdiv_mult_cancel h s Hs) at 1.
    setoid_replace (- (h / inject_Z s * inject_Z s))%Q
      with (- (h / inject_Z s) * inject_Z s)%Q using relation Qeq by ring.
    apply Qmult_le_compat_r; [exact Hlo |].
    apply Qlt_le_weak, inject_Z_pos; exact Hs. }
  rewrite inject_Z_opp.
  setoid_replace (h - inject_Z s * - inject_Z m)%Q
    with (h + inject_Z m * inject_Z s)%Q using relation Qeq by ring.
  apply (Qplus_le_r _ _ (- h)).
  setoid_replace (- h + (h + inject_Z m * inject_Z s))%Q
    with (inject_Z m * inject_Z s)%Q using relation Qeq by ring.
  rewrite Qplus_0_r. exact Hm.
Qed.

Section CacheCoord.

Variable c : GradientCache.t.

(** The cache coordinate is an integer obtained by clamping. *)
Lemma cacheCoord_Fin (x : Q) :
  GradientCache.cacheSize c <> 0 ->
  GradientCache.cacheCoord c (Fin x)
  = ofZ (Z.max 0 (Z.min (GradientCache.cacheSize c - 1)
      (Qfloor (Qmult' x (1 # 2)
               - inject_Z (GradientCache.cacheSize c)
                 * inject_Z (Qtrunc (Qmult' x (1 # 2)
                                     / inject_Z (GradientCache.cacheSize c))))))).
Proof.
  intros Hs. unfold GradientCache.cacheCoord.
  change (Fin x * Fin (1 # 2))%js with (Fin (Qmult' x (1 # 2))).
  rewrite (rem_Fin _ _ Hs). unfold Math_floor.
  rewrite Qfloor_Qred. autorewrite with js_int. reflexivity.
Qed.

Lemma cacheCoord_range (x : Q) :
  0 < GradientCache.cacheSize c ->
  exists i, GradientCache.cacheCoord c (Fin x) = ofZ i
            /\ 0 <= i <= GradientCache.cacheSize c - 1.
Proof.
  intros Hs. eexists. split; [apply cacheCoord_Fin; lia | lia].
Qed.

Lemma cacheCoord_nonneg (x : Q) :
  0 < GradientCache.cacheSize c -> (0 <= x)%Q ->
  GradientCache.cacheCoord c (Fin x)
  = ofZ (Qfloor (x * (1 # 2)) mod GradientCache.cacheSize c).
Proof.
  intros Hs Hx. rewrite cacheCoord_Fin by lia.
  assert (0 <= Qmult' x (1 # 2))%Q as Hh.
  { rewrite Qmult'_correct. apply Qmult_le_0_compat; [exact Hx | discriminate]. }
  rewrite (floor_rem_nonneg _ _ Hs Hh).
  unfold Qmult' at 1. rewrite Qfloor_Qred.
  pose proof (Z.mod_pos_bound (Qfloor (x * (1 # 2))) _ Hs).
  f_equal. lia.
Qed.

Lemma cacheCoord_negative (x : Q) :
  GradientCache.cacheSize c <> 0 -> (x < 0)%Q ->
  GradientCache.cacheCoord c (Fin x) = ofZ 0.
Proof.
  intros Hs Hx. rewrite cacheCoord_Fin by exact Hs.
  destruct (Z.lt_trichotomy (GradientCache.cacheSize c) 0) as [Hn | [Hz | Hp]];
    [f_equal; lia | contradiction |].
  assert (Qmult' x (1 # 2) <= 0)%Q as Hh.
  { rewrite Qmult'_correct.
    setoid_replace 0%Q with (0 * (1 # 2))%Q using relation Qeq by ring.
    apply Qmult_le_compat_r; [apply Qlt_le_weak; exact Hx | discriminate]. }
  pose proof (floor_rem_nonpos _ _ Hp Hh).
  f_equal. lia.
Qed.

Lemma cacheCoord_nonpositive_size (x : Q) :
  GradientCache.cacheSize c < 0 ->
  GradientCache.cacheCoord c (Fin x) = ofZ 0.
Proof.
  intros Hs. rewrite cacheCoord_Fin by lia. f_equal. lia.
Qed.

Lemma cacheCoord_zero_size (a : number) :
  GradientCache.cacheSize c = 0 ->
  GradientCache.cacheCoord c a = NaN.
Proof.
  intros Hs. unfold GradientCache.cacheCoord. rewrite Hs.
  destruct a as [| x]; reflexivity.
Qed.

Lemma cacheCoord_NaN :
  GradientCache.cacheCoord c NaN = NaN.
Proof. reflexivity. Qed.

End CacheCoord.

(** ** The pre-bake *)

(** A loop [for (i = 0; i < n; i++)] establishes an invariant indexed by
    the number of iterations done. *)
Lemma foldl_seqZ_invariant {A : Type} (P : Z -> A -> Prop)
    (f : A -> Z -> A) (a : A) (n : Z) :
  0 <= n -> P 0 a ->
  (forall i b, 0 <= i < n -> P i b -> P (i + 1) (f b i)) ->
  P n (foldl f a (seqZ 0 n)).
Proof.
  intros Hn H0 Hstep.
  rewrite <- (Z2Nat.id n Hn).
  assert (Z.to_nat n <= Z.to_nat n)%nat as Hle by lia.
  revert Hle. generalize (Z.to_nat n) at 1 3 4 as m.
  induction m as [| m IH]; intros Hle.
  - exact H0.
  - rewrite seqZ_S, foldl_snoc. simpl (0 + Z.of_nat m).
    replace (Z.of_nat (S m)) with (Z.of_nat m + 1) by lia.
    apply Hstep; [lia | apply IH; lia].
Qed.

Lemma setPixel_pixels (i : Z) (v : option number) (g : Graphics) :
  0 <= i ->
  pixels (setPixel i v g) = <[Z.to_nat i := toUint8Clamp v]> (pixels g).
Proof.
  intros Hi. unfold setPixel; simpl.
  destruct (Z.ltb_spec i 0); [lia | reflexivity].
Qed.

Lemma createGraphics_length (s : Z) :
  0 <= s -> length (pixels (createGraphics s s)) = Z.to_nat (4 * s * s).
Proof.
  intros Hs. unfold createGraphics; simpl.
  destruct (Z.ltb_spec 0 s); simpl.
  - apply length_replicate.
  - replace s with 0 by lia. reflexivity.
Qed.

Section Prebake.

(** The object being baked and the noise state the bake runs in. *)
Variable this : GradientCache.t.
Variable seeded : option number.

Local Abbreviation size := (GradientCache.cacheSize this).

(** The pixels are written in row-major order: pixel [x + y * size] is
    the next one when [x + y * size] are done. *)
Lemma bakePixel_step (y x : Z) (tex : Graphics) :
  0 <= x < size -> 0 <= y < size ->
  bakedUpTo this seeded (x + y * size) tex ->
  bakedUpTo this seeded (x + y * size + 1)
            (GradientCache.bakePixel this seeded y x tex).
Proof.
  unfold bakedUpTo. set (s := size).
  intros Hx Hy [Hlen Hold].
  assert (0 <= y * s) as Hys by nia.
  assert (x + y * s < s * s) as Hps by nia.
  set (n := x + y * s) in *.
  assert (pixels (GradientCache.bakePixel this seeded y x tex)
          = <[Z.to_nat (4 * n + 3) := 255]>
              (<[Z.to_nat (4 * n + 2) := texel this seeded y x !!! 2%nat]>
                (<[Z.to_nat (4 * n + 1) := texel this seeded y x !!! 1%nat]>
                  (<[Z.to_nat (4 * n + 0) := texel this seeded y x !!! 0%nat]>
                    (pixels tex))))) as Hpx.
  { unfold GradientCache.bakePixel. fold s. fold n.
    rewrite !setPixel_pixels by lia.
    replace (n * 4 + 3) with (4 * n + 3) by lia.
    replace (n * 4 + 2) with (4 * n + 2) by lia.
    replace (n * 4 + 1) with (4 * n + 1) by lia.
    replace (n * 4 + 0) with (4 * n + 0) by lia.
    reflexivity. }
  split.
  - rewrite Hpx, !length_insert. exact Hlen.
  - intros p k Hp Hk. rewrite Hpx.
    destruct (Z.eq_dec p n) as [-> | Hne].
    + assert (n / s = y) as -> by (symmetry; apply (Z.div_unique_pos n s y x); lia).
      assert (n mod s = x) as -> by (symmetry; apply (Z.mod_unique_pos n s y x); lia).
      assert (k = 0 \/ k = 1 \/ k = 2 \/ k = 3) as [-> | [-> | [-> | ->]]] by lia.
      * rewrite !list_lookup_insert_ne by lia.
        rewrite list_lookup_insert_eq by lia. reflexivity.
      * rewrite !list_lookup_insert_ne by lia.
        rewrite list_lookup_insert_eq by (rewrite !length_insert; lia).
        reflexivity.
      * rewrite !list_lookup_insert_ne by lia.
        rewrite list_lookup_insert_eq by (rewrite !length_insert; lia).
        reflexivity.
      * rewrite list_lookup_insert_eq by (rewrite !length_insert; lia).
        reflexivity.
    + rewrite !list_lookup_insert_ne by lia.
      apply Hold; lia.
Qed.

Lemma bakeRow_step (y : Z) (tex : Graphics) :
  0 <= y < size ->
  bakedUpTo this seeded (y * size) tex ->
  bakedUpTo this seeded ((y + 1) * size)
            (GradientCache.bakeRow this seeded tex y).
Proof.
  intros Hy H0. unfold GradientCache.bakeRow.
  replace ((y + 1) * size) with (size + y * size) by lia.
  apply (foldl_seqZ_invariant
           (fun i g => bakedUpTo this seeded (i + y * size) g)).
  - lia.
  - exact H0.
  - intros i g Hi Hg.
    replace (i + 1 + y * size) with (i + y * size + 1) by lia.
    apply bakePixel_step; assumption.
Qed.

Lemma bakeRows_all :
  0 <= size ->
  bakedUpTo this seeded (size * size)
    (foldl (GradientCache.bakeRow this seeded) (createGraphics size size)
           (seqZ 0 size)).
Proof.
  intros Hs.
  apply (foldl_seqZ_invariant (fun y g => bakedUpTo this seeded (y * size) g)).
  - exact Hs.
  - split; [apply createGraphics_length; exact Hs | intros; lia].
  - intros y g Hy Hg. apply bakeRow_step; assumption.
Qed.

End Prebake.

(** After [prebake] every pixel of the texture holds its texel. *)
Lemma prebake_bakedUpTo (seed : number) (this : GradientCache.t) (w : World) :
  0 <= GradientCache.cacheSize this ->
  exists tex,
    GradientCache.cacheTexture (fst (GradientCache.prebake seed this w)) = Some tex
    /\ GradientCache.cachePixels (fst (GradientCache.prebake seed this w))
       = Some (pixels tex)
    /\ bakedUpTo this (Some seed)
         (GradientCache.cacheSize this * GradientCache.cacheSize this) tex.
Proof.
  intros Hs. unfold GradientCache.prebake; simpl.
  eexists. split; [reflexivity |]. split; [reflexivity |].
  apply bakeRows_all. exact Hs.
Qed.

Lemma prebake_pixel (seed : number) (this : GradientCache.t) (w : World)
    (x y k : Z) :
  0 <= x < GradientCache.cacheSize this ->
  0 <= y < GradientCache.cacheSize this ->
  0 <= k < 4 ->
  exists px,
    GradientCache.cachePixels (fst (GradientCache.prebake seed this w)) = Some px
    /\ length px
       = Z.to_nat (4 * GradientCache.cacheSize this * GradientCache.cacheSize this)
    /\ px !! Z.to_nat (4 * (x + y * GradientCache.cacheSize this) + k)
       = texel this (Some seed) y x !! Z.to_nat k.
Proof.
  intros Hx Hy Hk.
  destruct (prebake_bakedUpTo seed this w) as (tex & _ & Hpx & Hlen & Hall);
    [lia |].
  exists (pixels tex). split; [exact Hpx |]. split; [exact Hlen |].
  set (s := GradientCache.cacheSize this) in *.
  rewrite (Hall (x + y * s) k) by nia.
  assert ((x + y * s) / s = y) as -> by (symmetry; apply (Z.div_unique_pos _ s y x); lia).
  assert ((x + y * s) mod s = x) as -> by (symmetry; apply (Z.mod_unique_pos _ s y x); lia).
  reflexivity.
Qed.

(** A cache built with a positive size holds a texture of that size; so
    does a cache after [regenerate]. *)
Lemma prebake_baked (seed : number) (this : GradientCache.t) (w : World) :
  0 < GradientCache.cacheSize this ->
  baked (fst (GradientCache.prebake seed this w)) = true.
Proof.
  intros Hs.
  destruct (prebake_bakedUpTo seed this w) as (tex & _ & Hpx & Hlen & _);
    [lia |].
  unfold baked. rewrite Hpx, Hlen.
  change (GradientCache.cacheSize (GradientCache.prebake seed this w).1)
    with (GradientCache.cacheSize this).
  apply andb_true_intro. split; [apply Z.ltb_lt; exact Hs | apply Nat.eqb_refl].
Qed.

Lemma new_baked (G : GoogleColors) (host : P5) (size : Z)
    (pal : option (list (list number))) (scale seed : number) (w : World) :
  0 < size ->
  baked (fst (GradientCache.new G host size pal scale seed w)) = true.
Proof. intros Hs. apply prebake_baked. exact Hs. Qed.

Lemma new_controlPoints (G : GoogleColors) (host : P5) (size : Z)
    (pal : option (list (list number))) (scale seed : number) (w : World) :
  GradientCache.controlPoints (fst (GradientCache.new G host size pal scale seed w))
  = 20.
Proof. reflexivity. Qed.

Lemma regenerate_baked (newSeed : number) (c : GradientCache.t) (w : World) :
  0 < GradientCache.cacheSize c ->
  baked (fst (GradientCache.regenerate newSeed c w)) = true.
Proof. intros Hs. apply prebake_baked. exact Hs. Qed.

(** ** The lookup *)

(** [getColor] depends on the screen coordinates through their cache
    coordinates only. *)
Lemma getColor_coord (c : GradientCache.t) (x x' y y' : number) :
  GradientCache.cacheCoord c x' = GradientCache.cacheCoord c x ->
  GradientCache.cacheCoord c y' = GradientCache.cacheCoord c y ->
  GradientCache.getColor c x' y' = GradientCache.getColor c x y.
Proof.
  intros Hx Hy. unfold GradientCache.getColor. rewrite Hx, Hy. reflexivity.
Qed.

(** The pixel read at integer cache coordinates. *)
Lemma getColor_at (c : GradientCache.t) (px : list Z) (x y : number)
    (ix iy : Z) :
  GradientCache.cachePixels c = Some px ->
  GradientCache.cacheCoord c x = ofZ ix ->
  GradientCache.cacheCoord c y = ofZ iy ->
  0 <= (ix + iy * GradientCache.cacheSize c) * 4 ->
  GradientCache.getColor c x y
  = Return
      [ ofZ <$> px !! Z.to_nat ((ix + iy * GradientCache.cacheSize c) * 4 + 0);
        ofZ <$> px !! Z.to_nat ((ix + iy * GradientCache.cacheSize c) * 4 + 1);
        ofZ <$> px !! Z.to_nat ((ix + iy * GradientCache.cacheSize c) * 4 + 2) ].
Proof.
  intros Hpx Hx Hy Hi. unfold GradientCache.getColor, GradientCache.readPixel.
  rewrite Hpx, Hx, Hy. autorewrite with js_int.
  rewrite !get_ofZ by lia. reflexivity.
Qed.

Lemma baked_inv (c : GradientCache.t) :
  baked c = true ->
  0 < GradientCache.cacheSize c
  /\ exists px, GradientCache.cachePixels c = Some px
       /\ length px = Z.to_nat (4 * GradientCache.cacheSize c
                                  * GradientCache.cacheSize c).
Proof.
  unfold baked. intros H. apply andb_prop in H as [Hs Hp].
  apply Z.ltb_lt in Hs. split; [exact Hs |].
  destruct (GradientCache.cachePixels c) as [px |]; [| discriminate].
  exists px. split; [reflexivity | apply Nat.eqb_eq; exact Hp].
Qed.

Lemma calls_frame (ls : list GradientCache.Lookup) (st : GradientCache.t * World) :
  GradientCache.calls ls st = st.
Proof.
  unfold GradientCache.calls.
  induction ls as [| l ls IH]; simpl; [reflexivity |].
  destruct l; simpl; exact IH.
Qed.

(** The object built by the constructor does not depend on the global state
    it is built in. *)
Lemma new_world_independent (G : GoogleColors) (host : P5) (s : Z)
    (pal : option (list (list number))) (sc seed : number) (w1 w2 : World) :
  fst (GradientCache.new G host s pal sc seed w1)
  = fst (GradientCache.new G host s pal sc seed w2).
Proof. reflexivity. Qed.

Lemma tile_shift (x : Q) (s k : Z) :
  Qfloor ((x + inject_Z (2 * s * k)) * (1 # 2)) = Qfloor (x * (1 # 2)) + s * k.
Proof.
  rewrite <- Qfloor_plus_Z. apply Qfloor_comp.
  rewrite !inject_Z_mult. ring.
Qed.

Lemma cacheCoord_tile (c : GradientCache.t) (x : Q) (k : Z) :
  (0 <= x)%Q ->
  (0 <= x + inject_Z (2 * GradientCache.cacheSize c * k))%Q ->
  GradientCache.cacheCoord c (Fin (x + inject_Z (2 * GradientCache.cacheSize c * k)))
  = GradientCache.cacheCoord c (Fin x).
Proof.
  intros Hx Hx'.
  destruct (Z.lt_trichotomy (GradientCache.cacheSize c) 0) as [Hn | [Hz | Hp]].
  - rewrite !cacheCoord_nonpositive_size by exact Hn. reflexivity.
  - rewrite !cacheCoord_zero_size by exact Hz. reflexivity.
  - rewrite !cacheCoord_nonneg by assumption.
    rewrite tile_shift, Z.mul_comm, Z_mod_plus_full. reflexivity.
Qed.

(** ** The claims on the lookup *)

(** C1, as stated, fails, in two ways.  With the cache of size 4 baked on
    the ramp host, [getColor(0 + 4 * 1, 0)] reads column 2 and
    [getColor(0, 0)] reads column 0, which hold different colours: the
    period is not the cache size.  And [getColor(4 + 4 * (-2), 0)] reads
    column 0 where [getColor(4, 0)] reads column 2: a negative coordinate
    is clamped to 0, not wrapped, whatever the period. *)
Lemma C1_period_is_not_size :
  GradientCache.getColor
    (fst (GradientCache.new googleColors rampP5 4 None (Fin (1 # 4)) (ofZ 12345) world0))
    (Fin (0 + inject_Z (4 * 1))) (ofZ 0)
  <> GradientCache.getColor
       (fst (GradientCache.new googleColors rampP5 4 None (Fin (1 # 4)) (ofZ 12345) world0))
       (Fin 0) (ofZ 0)
  /\ GradientCache.getColor
       (fst (GradientCache.new googleColors rampP5 4 None (Fin (1 # 4)) (ofZ 12345) world0))
       (Fin (4 + inject_Z (4 * (-2)))) (ofZ 0)
     <> GradientCache.getColor
          (fst (GradientCache.new googleColors rampP5 4 None (Fin (1 # 4)) (ofZ 12345) world0))
          (Fin 4) (ofZ 0).
Proof. split; vm_compute; discriminate. Qed.

(** C1, amended: the screen coordinate is halved before the modulo, so the
    lookup tiles with period [2 * size] in each coordinate, over the
    non-negative coordinates: for [x >= 0] and an integer [k] with
    [x + 2 * size * k >= 0], [getColor(x + 2 * size * k, y) = getColor(x, y)],
    and the same in the second coordinate. *)
Theorem C1_getColor_tiles_with_period_twice_size
    (c : GradientCache.t) (x : Q) (k : Z) (other : number) :
  (0 <= x)%Q ->
  (0 <= x + inject_Z (2 * GradientCache.cacheSize c * k))%Q ->
  GradientCache.getColor c
    (Fin (x + inject_Z (2 * GradientCache.cacheSize c * k))) other
  = GradientCache.getColor c (Fin x) other
  /\ GradientCache.getColor c other
       (Fin (x + inject_Z (2 * GradientCache.cacheSize c * k)))
     = GradientCache.getColor c other (Fin x).
Proof.
  intros Hx Hx'. split; apply getColor_coord;
    solve [reflexivity | apply cacheCoord_tile; assumption].
Qed.

Lemma C1_getColor_tiles_witness :
  GradientCache.getColor cache4
    (Fin (3 + inject_Z (2 * GradientCache.cacheSize cache4 * 5))) (ofZ 1)
  = GradientCache.getColor cache4 (Fin 3) (ofZ 1)
  /\ GradientCache.getColor cache4 (ofZ 1)
       (Fin (3 + inject_Z (2 * GradientCache.cacheSize cache4 * 5)))
     = GradientCache.getColor cache4 (ofZ 1) (Fin 3).
Proof.
  apply (C1_getColor_tiles_with_period_twice_size cache4 3 5 (ofZ 1)).
  - vm_compute. discriminate.
  - vm_compute. discriminate.
Defined.

(** C4: the animated lookup is the plain lookup with the time offset added
    to the vertical coordinate.  It reads the cache size and the baked
    pixels only (any object with the same two gives the same answer, so the
    noise function is not sampled again), and as a call it leaves the
    object and the global state as they were. *)
Theorem C4_getAnimatedColor_is_getColor_shifted
    (c : GradientCache.t) (screenX screenY timeOffset : number) :
  GradientCache.getAnimatedColor c screenX screenY timeOffset
  = GradientCache.getColor c screenX (screenY + timeOffset)%js
  /\ (forall w,
        GradientCache.call (GradientCache.GetAnimatedColor screenX screenY timeOffset) (c, w)
        = GradientCache.call (GradientCache.GetColor screenX (screenY + timeOffset)%js) (c, w))
  /\ (forall c',
        GradientCache.cacheSize c' = GradientCache.cacheSize c ->
        GradientCache.cachePixels c' = GradientCache.cachePixels c ->
        GradientCache.getAnimatedColor c' screenX screenY timeOffset
        = GradientCache.getColor c screenX (screenY + timeOffset)%js).
Proof.
  split; [reflexivity |]. split; [reflexivity |].
  intros c' Hs Hp.
  unfold GradientCache.getAnimatedColor, GradientCache.getColor,
    GradientCache.cacheCoord.
  rewrite Hs, Hp. reflexivity.
Qed.

(** C10: on a cache holding a texture of positive size, the cache indices
    computed from finite screen coordinates lie in [0, size - 1], the three
    reads fall inside the pixel buffer and an RGB triple of defined values
    is returned; a negative screen coordinate gives index 0. *)
Theorem C10_getColor_indices_clamped
    (c : GradientCache.t) (x y : Q) :
  baked c = true ->
  exists ix iy px r g b,
    GradientCache.cacheCoord c (Fin x) = ofZ ix
    /\ GradientCache.cacheCoord c (Fin y) = ofZ iy
    /\ 0 <= ix <= GradientCache.cacheSize c - 1
    /\ 0 <= iy <= GradientCache.cacheSize c - 1
    /\ ((x < 0)%Q -> ix = 0)
    /\ ((y < 0)%Q -> iy = 0)
    /\ GradientCache.cachePixels c = Some px
    /\ (Z.to_nat ((ix + iy * GradientCache.cacheSize c) * 4 + 2) < length px)%nat
    /\ GradientCache.getColor c (Fin x) (Fin y)
       = Return [Some (ofZ r); Some (ofZ g); Some (ofZ b)].
Proof.
  intros Hb. destruct (baked_inv c Hb) as (Hs & px & Hpx & Hlen).
  set (s := GradientCache.cacheSize c) in *.
  destruct (cacheCoord_range c x Hs) as (ix & Hix & Hrx).
  destruct (cacheCoord_range c y Hs) as (iy & Hiy & Hry).
  fold s in Hrx, Hry.
  assert (0 <= (ix + iy * s) * 4 /\ (ix + iy * s) * 4 + 3 < 4 * s * s) as [Hlo Hhi] by nia.
  assert (forall k, 0 <= k < 4 ->
            is_Some (px !! Z.to_nat ((ix + iy * s) * 4 + k))) as Hin.
  { intros k Hk. apply lookup_lt_is_Some. rewrite Hlen. lia. }
  destruct (Hin 0) as [r Hr]; [lia |].
  destruct (Hin 1) as [g Hg]; [lia |].
  destruct (Hin 2) as [b Hbl]; [lia |].
  exists ix, iy, px, r, g, b.
  repeat split; try assumption; try lia.
  - intros Hneg. pose proof (cacheCoord_negative c x) as Hz.
    rewrite Hix in Hz. specialize (Hz ltac:(fold s; lia) Hneg).
    injection Hz as Hz. exact Hz.
  - intros Hneg. pose proof (cacheCoord_negative c y) as Hz.
    rewrite Hiy in Hz. specialize (Hz ltac:(fold s; lia) Hneg).
    injection Hz as Hz. exact Hz.
  - rewrite (getColor_at c px (Fin x) (Fin y) ix iy Hpx Hix Hiy) by (fold s; lia).
    fold s. rewrite Hr, Hg, Hbl. reflexivity.
Qed.

Lemma C10_getColor_indices_clamped_witness :
  exists ix iy px r g b,
    GradientCache.cacheCoord cache4 (Fin (-7 # 2)) = ofZ ix
    /\ GradientCache.cacheCoord cache4 (Fin (27 # 4)) = ofZ iy
    /\ 0 <= ix <= GradientCache.cacheSize cache4 - 1
    /\ 0 <= iy <= GradientCache.cacheSize cache4 - 1
    /\ ((-7 # 2 < 0)%Q -> ix = 0)
    /\ ((27 # 4 < 0)%Q -> iy = 0)
    /\ GradientCache.cachePixels cache4 = Some px
    /\ (Z.to_nat ((ix + iy * GradientCache.cacheSize cache4) * 4 + 2) < length px)%nat
    /\ GradientCache.getColor cache4 (Fin (-7 # 2)) (Fin (27 # 4))
       = Return [Some (ofZ r); Some (ofZ g); Some (ofZ b)].
Proof.
  apply (C10_getColor_indices_clamped cache4 (-7 # 2) (27 # 4)).
  vm_compute. reflexivity.
Defined.

(** ** Construction, determinism and immutability *)

(** The constructor on a host that delivers the pixel array is [new]; so
    it is on a browser canvas for a positive size. *)
Lemma newOn_delivering (G : GoogleColors) (host : P5) (size : Z)
    (pal : option (list (list number))) (scale seed : number) (w : World) :
  GradientCache.newOn deliveringCanvas G host size pal scale seed w
  = (GradientCache.Constructed (fst (GradientCache.new G host size pal scale seed w)),
     snd (GradientCache.new G host size pal scale seed w)).
Proof. reflexivity. Qed.

Lemma newOn_browser_positive (G : GoogleColors) (host : P5) (size : Z)
    (pal : option (list (list number))) (scale seed : number) (w : World) :
  0 < size ->
  GradientCache.newOn browserCanvas G host size pal scale seed w
  = (GradientCache.Constructed (fst (GradientCache.new G host size pal scale seed w)),
     snd (GradientCache.new G host size pal scale seed w)).
Proof.
  intros Hs. unfold GradientCache.newOn, GradientCache.prebakeOn.
  cbn [loadPixels browserCanvas createGraphics g_width g_height
       GradientCache.cacheSize].
  destruct (Z.ltb_spec 0 size); [reflexivity | lia].
Qed.




(** C3, as stated, fails: size, palette and seed do not determine the
    texture, the noise scale is a fourth argument of the constructor.  Two
    caches built on the same host with size 4, the default palette and seed
    12345, one with noise scale 0.25 and one with 0.125, answer
    [getColor(2, 0)] differently. *)
Lemma C3_noiseScale_matters :
  GradientCache.getColor
    (fst (GradientCache.new googleColors rampP5 4 None (Fin (1 # 4)) (ofZ 12345) world0))
    (ofZ 2) (ofZ 0)
  <> GradientCache.getColor
       (fst (GradientCache.new googleColors rampP5 4 None (Fin (1 # 8)) (ofZ 12345) world0))
       (ofZ 2) (ofZ 0).
Proof. vm_compute. discriminate. Qed.

(** The noise detail in force when a cache is built is part of what makes
    its texture: on the library whose noise follows the falloff, the same
    construction under falloff 0.5 and under falloff 0.25 gives caches that
    answer [getColor(2, 0)] differently. *)
Lemma noiseDetail_matters :
  GradientCache.getColor
    (fst (GradientCache.new googleColors (falloffLibrary detailHalf) 4 None
                            (Fin (1 # 4)) (ofZ 12345) world0))
    (ofZ 2) (ofZ 0)
  <> GradientCache.getColor
       (fst (GradientCache.new googleColors (falloffLibrary detailQuarter) 4 None
                               (Fin (1 # 4)) (ofZ 12345) world0))
       (ofZ 2) (ofZ 0).
Proof. vm_compute. discriminate. Qed.

(** C3, amended: two caches built with identical size, palette, noise scale
    and seed, on pages with the same noise detail (so that the noise
    function is the same), return identical colours at every coordinate,
    whatever else differs between the pages (the noise seed set before,
    the drawing calls made, the debug flag) and whatever lookups were made
    on each cache before. *)
Theorem C3_lookup_deterministic
    (lib : Library) (G : GoogleColors) (size : Z)
    (pal : option (list (list number))) (scale seed : number)
    (page1 page2 : Page) (before1 before2 : list GradientCache.Lookup)
    (x y : number) :
  detail page1 = detail page2 ->
  GradientCache.getColor
    (fst (GradientCache.calls before1
            (GradientCache.new G (lib (detail page1)) size pal scale seed
                               (world page1)))) x y
  = GradientCache.getColor
      (fst (GradientCache.calls before2
              (GradientCache.new G (lib (detail page2)) size pal scale seed
                                 (world page2)))) x y.
Proof.
  intros Hd. rewrite !calls_frame, Hd.
  rewrite (new_world_independent G (lib (detail page2)) size pal scale seed
             (world page1) (world page2)).
  reflexivity.
Qed.

Lemma C3_lookup_deterministic_witness :
  GradientCache.getColor
    (fst (GradientCache.calls [GradientCache.GetColor (ofZ 1) (ofZ 1)]
            (GradientCache.new googleColors (falloffLibrary (detail pageFresh)) 4
                               None (Fin (1 # 4)) (ofZ 12345) (world pageFresh))))
    (ofZ 6) (ofZ 3)
  = GradientCache.getColor
      (fst (GradientCache.calls []
              (GradientCache.new googleColors (falloffLibrary (detail pageUsed)) 4
                                 None (Fin (1 # 4)) (ofZ 12345) (world pageUsed))))
      (ofZ 6) (ofZ 3).
Proof.
  apply (C3_lookup_deterministic falloffLibrary googleColors 4 None (Fin (1 # 4))
           (ofZ 12345) pageFresh pageUsed
           [GradientCache.GetColor (ofZ 1) (ofZ 1)] [] (ofZ 6) (ofZ 3)).
  reflexivity.
Defined.

(** C7: lookups, in any number and order, leave the cache object (pixel
    buffer, size, palette, noise scale) and the global state as they were;
    [regenerate(newSeed)] on a cache keeps its size, palette and noise
    scale and replaces the texture by the pre-bake for [newSeed]: the
    cache is the one the constructor builds for [newSeed]. *)
Theorem C7_texture_changes_only_by_regenerate :
  (forall (c : GradientCache.t) (w : World) (ls : list GradientCache.Lookup),
     GradientCache.calls ls (c, w) = (c, w))
  /\ (forall (c : GradientCache.t) (w : World) (newSeed : number),
        let c' := fst (GradientCache.regenerate newSeed c w) in
        GradientCache.cacheSize c' = GradientCache.cacheSize c
        /\ GradientCache.palette c' = GradientCache.palette c
        /\ GradientCache.noiseScale c' = GradientCache.noiseScale c
        /\ forall tex px,
             GradientCache.regenerate newSeed c w
             = GradientCache.prebake newSeed
                 {| GradientCache.p5 := GradientCache.p5 c;
                    GradientCache.cacheSize := GradientCache.cacheSize c;
                    GradientCache.noiseScale := GradientCache.noiseScale c;
                    GradientCache.controlPoints := GradientCache.controlPoints c;
                    GradientCache.palette := GradientCache.palette c;
                    GradientCache.cacheTexture := tex;
                    GradientCache.cachePixels := px |} w)
  /\ (forall (G : GoogleColors) (host : P5) (size : Z)
             (pal : option (list (list number))) (scale seed newSeed : number)
             (w0 w : World),
        GradientCache.regenerate newSeed
          (fst (GradientCache.new G host size pal scale seed w0)) w
        = GradientCache.new G host size pal scale newSeed w).
Proof.
  split; [intros; apply calls_frame |].
  split; [| reflexivity].
  intros c w newSeed c'. repeat split.
Qed.

(** ** The colour mapping of the pre-bake *)

Lemma toUint8Clamp_byte (z : Z) :
  0 <= z <= 255 -> toUint8Clamp (Some (ofZ z)) = z.
Proof.
  intros Hz. unfold toUint8Clamp, ofZ.
  change 0%Q with (inject_Z 0). change 255%Q with (inject_Z 255).
  rewrite !Qle_bool_inject_Z.
  destruct (Z.leb_spec z 0); [lia |].
  destruct (Z.leb_spec 255 z); [lia |].
  unfold roundHalfEven. rewrite Qfloor_Z.
  assert ((inject_Z z - inject_Z z ?= 1 # 2)%Q = Lt) as ->; [| reflexivity].
  apply Qlt_alt.
  setoid_replace (inject_Z z - inject_Z z)%Q with 0%Q using relation Qeq by ring.
  reflexivity.
Qed.

Lemma toUint8Clamp_range (v : option number) : 0 <= toUint8Clamp v <= 255.
Proof.
  destruct v as [[| q] |]; simpl; try lia.
  destruct (Qle_bool q 0) eqn:E0; [lia |].
  destruct (Qle_bool 255 q) eqn:E1; [lia |].
  assert (0 < q)%Q as Hpos.
  { apply Qnot_le_lt. intros H. apply Qle_bool_iff in H. congruence. }
  assert (q < 255)%Q as Hlt.
  { apply Qnot_le_lt. intros H. apply Qle_bool_iff in H. congruence. }
  assert (0 <= Qfloor q) by (apply Qle_floor_Z, Qlt_le_weak; exact Hpos).
  assert (Qfloor q < 255) by (apply Qfloor_lt_Z; exact Hlt).
  unfold roundHalfEven.
  destruct (Qcompare _ _); [destruct (Z.even _) | |]; lia.
Qed.

Lemma texel_bytes (this : GradientCache.t) (sd : option number) (y x : Z) :
  exists r g b,
    texel this sd y x = [r; g; b; 255]
    /\ 0 <= r <= 255 /\ 0 <= g <= 255 /\ 0 <= b <= 255.
Proof.
  unfold texel. eexists _, _, _. split; [reflexivity |].
  repeat split; apply toUint8Clamp_range.
Qed.

(** The integer remainder, on integer-valued numbers. *)
Lemma rem_ofZ (a n : Z) :
  0 <= a -> 0 < n -> (ofZ a %% ofZ n)%js = ofZ (a mod n).
Proof.
  intros Ha Hn. unfold ofZ at 1. rewrite rem_Fin by lia.
  unfold ofZ. f_equal.
  rewrite <- (Qred_inject_Z (a mod n)). apply Qred_complete.
  assert (0 <= inject_Z a / inject_Z n)%Q as Hq.
  { apply Qle_shift_div_l; [apply inject_Z_pos; exact Hn |].
    rewrite Qmult_0_l. change 0%Q with (inject_Z 0).
    rewrite <- Zle_Qle. exact Ha. }
  rewrite (Qtrunc_nonneg _ Hq), <- Zdiv_Qdiv.
  rewrite Z.mod_eq by lia. unfold Z.sub.
  rewrite inject_Z_plus, inject_Z_opp, inject_Z_mult. reflexivity.
Qed.

Lemma wellFormedPalette_lookup (p : list (list number)) (i : Z) :
  wellFormedPalette p = true ->
  0 <= i < Z.of_nat (length p) ->
  exists col, p !! Z.to_nat i = Some col /\ (length col <? 3)%nat = false.
Proof.
  intros Hwf Hi.
  destruct (lookup_lt_is_Some_2 p (Z.to_nat i)) as [col Hcol]; [lia |].
  exists col. split; [exact Hcol |].
  assert (forallb (fun col => (3 <=? length col)%nat) p = true) as Hall
    by (destruct p; [discriminate | exact Hwf]).
  rewrite forallb_forall in Hall.
  specialize (Hall col).
  rewrite <- list_elem_of_In in Hall.
  specialize (Hall (list_elem_of_lookup_2 _ _ _ Hcol)).
  apply Nat.leb_le in Hall. apply Nat.ltb_ge. exact Hall.
Qed.

Lemma wellFormedPalette_length (p : list (list number)) :
  wellFormedPalette p = true -> 0 < Z.of_nat (length p).
Proof. destruct p; [discriminate | simpl; lia]. Qed.

(** The colour of a number that is not NaN and not negative, on a
    well-formed palette. *)
Lemma interpolateColor_segment (c : GradientCache.t) (q : Q) :
  wellFormedPalette (GradientCache.palette c) = true ->
  1 <= GradientCache.controlPoints c ->
  (0 <= q)%Q ->
  GradientCache.interpolateColor c (Fin q)
  = specSegment (GradientCache.p5 c) (GradientCache.palette c)
      (Qfloor (q * inject_Z (GradientCache.controlPoints c - 1)))
      (Fin (Qred (q * inject_Z (GradientCache.controlPoints c - 1)
                  - inject_Z (Qfloor (q * inject_Z (GradientCache.controlPoints c - 1)))))).
Proof.
  intros Hwf Hcp Hq.
  pose proof (wellFormedPalette_length _ Hwf) as Hn.
  set (n := Z.of_nat (length (GradientCache.palette c))) in *.
  set (pos := (q * inject_Z (GradientCache.controlPoints c - 1))%Q).
  assert (0 <= Qfloor pos) as Hf.
  { apply Qle_floor_Z. change (inject_Z 0) with 0%Q. unfold pos.
    apply Qmult_le_0_compat; [exact Hq |].
    change 0%Q with (inject_Z 0). rewrite <- Zle_Qle. lia. }
  unfold GradientCache.interpolateColor. cbn [isNaN].
  change (Fin q * ofZ (GradientCache.controlPoints c - 1))%js
    with (Fin (Qred pos)).
  cbn [Math_floor]. rewrite Qfloor_Qred. fold n.
  rewrite (rem_ofZ _ _ Hf Hn), ofZ_add.
  pose proof (Z.mod_pos_bound (Qfloor pos) n Hn) as Hi1.
  rewrite (rem_ofZ _ n) by lia.
  pose proof (Z.mod_pos_bound (Qfloor pos `mod` n + 1) n Hn) as Hi2.
  rewrite !get_ofZ by lia.
  rewrite Zplus_mod_idemp_l.
  rewrite Zplus_mod_idemp_l in Hi2.
  destruct (wellFormedPalette_lookup _ (Qfloor pos mod n) Hwf Hi1) as (c1 & Hc1 & Hl1).
  destruct (wellFormedPalette_lookup _ ((Qfloor pos + 1) mod n) Hwf Hi2) as (c2 & Hc2 & Hl2).
  unfold specSegment. fold n. rewrite Hc1, Hc2, Hl1, Hl2. cbn [orb default].
  assert ((Fin (Qred pos) - ofZ (Qfloor pos))%js
          = Fin (Qred (pos - inject_Z (Qfloor pos)))) as ->; [| reflexivity].
  unfold sub, ofZ, Qminus'. f_equal. apply Qred_complete.
  rewrite Qred_correct. reflexivity.
Qed.

(** C6, as stated, fails: the palette colours are not the control points.
    With the four-colour default palette and noise value 0.1, the code
    answers a colour between the second and the third palette colours, at
    fraction 0.9; spacing the four colours evenly over [0,1], wrapping or
    not, answers a colour between the first and the second. *)
Lemma C6_palette_is_not_the_control_points :
  sameColor (GradientCache.interpolateColor cache4 (Fin (1 # 10)))
            (specInterpolateCyclic rampP5 (GradientCache.palette cache4) (1 # 10))
  = false
  /\ sameColor (GradientCache.interpolateColor cache4 (Fin (1 # 10)))
               (specInterpolateEnds rampP5 (GradientCache.palette cache4) (1 # 10))
     = false
  /\ GradientCache.interpolateColor cache4 (Fin (1 # 10))
     = specSegment rampP5 (GradientCache.palette cache4) 1 (Fin (9 # 10)).
Proof. vm_compute. repeat split. Qed.

(** C6, amended: for a noise value [t] in [0,1] and a well-formed palette
    of [n] colours, the colour mapping is piecewise-linear over 19 equal
    segments of [0,1] (20 control points, a constant of the cache, whatever
    the palette length), control point [j] carrying palette colour
    [j mod n]: with [pos = 19 * t], the colour is the linear interpolation
    between palette colours [floor(pos) mod n] and [(floor(pos) + 1) mod n]
    at fraction [pos - floor(pos)]. *)
Theorem C6_interpolateColor_cycles_through_control_points
    (c : GradientCache.t) (t0 : Q) :
  GradientCache.controlPoints c = 20 ->
  wellFormedPalette (GradientCache.palette c) = true ->
  (0 <= t0)%Q -> (t0 <= 1)%Q ->
  GradientCache.interpolateColor c (Fin t0)
  = specSegment (GradientCache.p5 c) (GradientCache.palette c)
      (Qfloor (t0 * 19))
      (Fin (Qred (t0 * 19 - inject_Z (Qfloor (t0 * 19))))).
Proof.
  intros Hcp Hwf Hlo _.
  rewrite (interpolateColor_segment c t0 Hwf) by (rewrite ?Hcp; first [lia | exact Hlo]).
  rewrite Hcp. reflexivity.
Qed.

Lemma C6_interpolateColor_witness :
  GradientCache.interpolateColor cache4 (Fin (1 # 2))
  = specSegment (GradientCache.p5 cache4) (GradientCache.palette cache4)
      (Qfloor ((1 # 2) * 19))
      (Fin (Qred ((1 # 2) * 19 - inject_Z (Qfloor ((1 # 2) * 19))))).
Proof.
  apply (C6_interpolateColor_cycles_through_control_points cache4 (1 # 2)).
  - reflexivity.
  - reflexivity.
  - vm_compute. discriminate.
  - vm_compute. discriminate.
Defined.

(** C5: when the noise function returns NaN for a pixel of the field, the
    pre-bake stores for it the channels of the first palette colour (as
    the byte conversion of the pixel buffer leaves them: unchanged for a
    colour of three bytes) with full opacity; the bake runs to its end and
    every pixel of the field holds four bytes, the last one 255. *)
Theorem C5_nan_noise_falls_back_to_first_palette_color
    (G : GoogleColors) (host : P5) (size : Z)
    (pal : option (list (list number))) (scale seed : number) (w : World)
    (x y : Z) (c0 : list number) :
  let c := fst (GradientCache.new G host size pal scale seed w) in
  0 <= x < size -> 0 <= y < size ->
  GradientCache.palette c !! 0%nat = Some c0 ->
  isNaN (p5_noise host (Some seed) (ofZ x * scale)%js (ofZ y * scale)%js (ofZ 0))
  = true ->
  exists px,
    GradientCache.cachePixels c = Some px
    /\ length px = Z.to_nat (4 * size * size)
    /\ storedAt px size x y
         [ toUint8Clamp (c0 !! 0%nat); toUint8Clamp (c0 !! 1%nat);
           toUint8Clamp (c0 !! 2%nat); 255 ]
    /\ (forall r g b, 0 <= r <= 255 -> 0 <= g <= 255 -> 0 <= b <= 255 ->
          c0 = [ofZ r; ofZ g; ofZ b] -> storedAt px size x y [r; g; b; 255])
    /\ (forall x' y', 0 <= x' < size -> 0 <= y' < size ->
          exists r g b,
            storedAt px size x' y' [r; g; b; 255]
            /\ 0 <= r <= 255 /\ 0 <= g <= 255 /\ 0 <= b <= 255).
Proof.
  intros c Hx Hy Hc0 Hnan.
  unfold c, GradientCache.new.
  set (this := {| GradientCache.p5 := host |}) in *.
  assert (GradientCache.cacheSize this = size) as Hsz by reflexivity.
  assert (forall x' y', 0 <= x' < size -> 0 <= y' < size ->
            exists px,
              GradientCache.cachePixels (fst (GradientCache.prebake seed this w)) = Some px
              /\ length px = Z.to_nat (4 * size * size)
              /\ storedAt px size x' y' (texel this (Some seed) y' x')) as Hall.
  { intros x' y' Hx' Hy'.
    destruct (prebake_pixel seed this w x' y' 0) as (px & Hpx & Hlen & _);
      rewrite ?Hsz; try lia.
    exists px. split; [exact Hpx |]. split; [rewrite Hlen, Hsz; reflexivity |].
    intros k Hk.
    destruct (prebake_pixel seed this w x' y' k) as (px' & Hpx' & _ & Hk');
      rewrite ?Hsz; try lia.
    rewrite Hsz in Hk'. congruence. }
  destruct (Hall x y Hx Hy) as (px & Hpx & Hlen & Hst).
  assert (texel this (Some seed) y x
          = [ toUint8Clamp (c0 !! 0%nat); toUint8Clamp (c0 !! 1%nat);
              toUint8Clamp (c0 !! 2%nat); 255 ]) as Htx.
  { unfold texel. change (GradientCache.p5 this) with host.
    change (GradientCache.noiseScale this) with scale.
    unfold GradientCache.interpolateColor. rewrite Hnan.
    unfold GradientCache.fallback.
    change (GradientCache.palette this) with (GradientCache.palette c).
    rewrite Hc0. reflexivity. }
  rewrite Htx in Hst.
  exists px. split; [exact Hpx |]. split; [exact Hlen |]. split; [exact Hst |].
  split.
  - intros r g b Hr Hg Hb ->.
    change ([ofZ r; ofZ g; ofZ b] !! 0%nat) with (Some (ofZ r)) in Hst.
    change ([ofZ r; ofZ g; ofZ b] !! 1%nat) with (Some (ofZ g)) in Hst.
    change ([ofZ r; ofZ g; ofZ b] !! 2%nat) with (Some (ofZ b)) in Hst.
    rewrite !toUint8Clamp_byte in Hst by assumption. exact Hst.
  - intros x' y' Hx' Hy'.
    destruct (Hall x' y' Hx' Hy') as (px' & Hpx' & _ & Hst').
    destruct (texel_bytes this (Some seed) y' x') as (r & g & b & Ht & Hr & Hg & Hb).
    exists r, g, b. rewrite Ht in Hst'.
    replace px with px' by congruence. auto.
Qed.

Lemma C5_nan_noise_witness :
  exists px,
    GradientCache.cachePixels cacheHole = Some px
    /\ length px = Z.to_nat (4 * 2 * 2)
    /\ storedAt px 2 0 0
         [ toUint8Clamp (rgb 66 133 244 !! 0%nat); toUint8Clamp (rgb 66 133 244 !! 1%nat);
           toUint8Clamp (rgb 66 133 244 !! 2%nat); 255 ]
    /\ (forall r g b, 0 <= r <= 255 -> 0 <= g <= 255 -> 0 <= b <= 255 ->
          rgb 66 133 244 = [ofZ r; ofZ g; ofZ b] -> storedAt px 2 0 0 [r; g; b; 255])
    /\ (forall x' y', 0 <= x' < 2 -> 0 <= y' < 2 ->
          exists r g b,
            storedAt px 2 x' y' [r; g; b; 255]
            /\ 0 <= r <= 255 /\ 0 <= g <= 255 /\ 0 <= b <= 255).
Proof.
  apply (C5_nan_noise_falls_back_to_first_palette_color googleColors holeP5 2
           None (Fin (1 # 4)) (ofZ 7) world0 0 0 (rgb 66 133 244)).
  - lia.
  - lia.
  - reflexivity.
  - reflexivity.
Defined.

(** ** The compositor *)

Lemma emitAll_app (l k : list DrawCmd) (w : World) :
  emitAll k (emitAll l w) = emitAll (l ++ k) w.
Proof. unfold emitAll; simpl. rewrite app_assoc. reflexivity. Qed.

Lemma draw_emitAll (c : DrawCmd) (w : World) : draw c w = emitAll [c] w.
Proof. reflexivity. Qed.

Lemma emit_bind {B : Type} (c : DrawCmd) (k : unit -> M B) (w : World) :
  bind (emit c) k w = k tt (draw c w).
Proof. reflexivity. Qed.

(** A loop whose body only appends drawing calls appends them in order. *)
Lemma forEach_emits {A : Type} (l : list A) (body : A -> M unit)
    (cmds : A -> list DrawCmd) (w : World) :
  (forall a pre, a ∈ l ->
     body a (emitAll pre w) = (Return tt, emitAll (pre ++ cmds a) w)) ->
  forall pre,
    forEach l body (emitAll pre w)
    = (Return tt, emitAll (pre ++ (l ≫= cmds)) w).
Proof.
  induction l as [| a l IH]; intros Hbody pre.
  - simpl. rewrite app_nil_r. reflexivity.
  - cbn [forEach]. unfold bind.
    rewrite Hbody by apply list_elem_of_here.
    rewrite IH by (intros; apply Hbody; apply list_elem_of_further; assumption).
    rewrite bind_cons, <- !app_assoc. reflexivity.
Qed.

Lemma bind_bind {A B C : Type} (l : list A) (g : A -> list B)
    (f : B -> list C) :
  (l ≫= g) ≫= f = l ≫= (fun a => g a ≫= f).
Proof.
  induction l as [| a l IH]; [reflexivity |].
  rewrite !bind_cons, bind_app, IH. reflexivity.
Qed.

Lemma gridCells_bind {C : Type} (engine : GoLEngine) (f : Z * Z -> list C) :
  gridCells engine ≫= f
  = seqZ 0 (cols engine) ≫= (fun gx =>
      seqZ 0 (rows engine) ≫= (fun gy => f (gx, gy))).
Proof.
  unfold gridCells. rewrite bind_bind.
  apply list_bind_ext; [| reflexivity]. intros gx.
  rewrite bind_bind.
  apply list_bind_ext; [| reflexivity]. intros gy.
  apply bind_singleton.
Qed.

Section Compositor.

(** One call [renderMaskedGrid(engine, x, y, cellSize)] of a renderer, in
    the global state [w]. *)
Variable r : SimpleGradientRenderer.t.
Variable engine : GoLEngine.
Variables x y cellSize : number.
Variable w : World.

Hypothesis engine_shaped : shaped engine = true.
Hypothesis renderer_usable : usable r = true.

(** Drawing does not change the colour the renderer samples. *)
Lemma gradient_after_draws (pre : list DrawCmd) (sx sy : number) :
  SimpleGradientRenderer.getGradientColor r sx sy (emitAll pre w)
  = (Return (gradientAt r w sx sy), emitAll pre w).
Proof.
  pose proof renderer_usable as Hu. revert Hu.
  unfold usable, gradientAt, SimpleGradientRenderer.getGradientColor.
  intros Hu.
  destruct (SimpleGradientRenderer.useCache r);
    destruct (SimpleGradientRenderer.gradientCache r) as [cache |];
    try reflexivity.
  unfold GradientCache.getAnimatedColor, GradientCache.getColor. simpl.
  destruct (GradientCache.cachePixels cache); [reflexivity | discriminate].
Qed.

Lemma shaped_column (gx : Z) :
  0 <= gx < cols engine -> is_Some (current engine !! Z.to_nat gx).
Proof.
  pose proof engine_shaped as H. unfold shaped in H. intros Hgx.
  apply andb_prop in H as [H _]. apply andb_prop in H as [_ Hlen].
  apply Nat.eqb_eq in Hlen.
  apply lookup_lt_is_Some. lia.
Qed.

Lemma renderCell_emits (gx gy : Z) (pre : list DrawCmd) :
  0 <= gx < cols engine ->
  SimpleGradientRenderer.renderCell r engine x y cellSize gx gy (emitAll pre w)
  = (Return tt,
     emitAll (pre ++ cellCommands r w engine x y cellSize (gx, gy)) w).
Proof.
  intros Hgx.
  destruct (shaped_column gx Hgx) as [column Hcol].
  unfold SimpleGradientRenderer.renderCell, SimpleGradientRenderer.isAlive,
    cellCommands, aliveCell, bind.
  rewrite Hcol. cbn [ret].
  destruct (match column !! Z.to_nat gy with
            | Some c => c =? SimpleGradientRenderer.ALIVE
            | None => false
            end).
  - rewrite gradient_after_draws.
    unfold emit, elem. rewrite !draw_emitAll, !emitAll_app.
    reflexivity.
  - unfold ret. rewrite app_nil_r. reflexivity.
Qed.

Lemma renderMaskedGrid_emits :
  SimpleGradientRenderer.renderMaskedGrid r engine x y cellSize w
  = (Return tt,
     emitAll ([Push; NoStroke]
              ++ (gridCells engine ≫= cellCommands r w engine x y cellSize)
              ++ [Pop]) w).
Proof.
  unfold SimpleGradientRenderer.renderMaskedGrid.
  rewrite !emit_bind, !draw_emitAll, emitAll_app.
  unfold bind at 1.
  rewrite (forEach_emits (seqZ 0 (cols engine)) _
             (fun gx => seqZ 0 (rows engine) ≫=
                (fun gy => cellCommands r w engine x y cellSize (gx, gy))) w).
  - unfold emit. rewrite draw_emitAll, emitAll_app.
    rewrite gridCells_bind, <- !app_assoc. reflexivity.
  - intros gx pre Hgx. apply elem_of_seqZ in Hgx.
    apply forEach_emits. intros gy pre' _.
    apply renderCell_emits. lia.
Qed.

(** One rectangle per alive cell. *)
Lemma rects_count (cells : list (Z * Z)) :
  length (List.filter isRect (cells ≫= cellCommands r w engine x y cellSize))
  = length (List.filter (fun cell => aliveCell engine (fst cell) (snd cell)) cells).
Proof.
  induction cells as [| [gx gy] cells IH]; [reflexivity |].
  rewrite bind_cons, List.filter_app, length_app, IH.
  unfold cellCommands at 1. simpl.
  destruct (aliveCell engine gx gy); reflexivity.
Qed.

End Compositor.

(** Frames leave the renderer, the noise state and the drawing calls as
    they were. *)
Lemma frames_spec (n : nat) (r : SimpleGradientRenderer.t) (w : World) :
  fst (frames n (r, w)) = r
  /\ noiseSeeded (snd (frames n (r, w))) = noiseSeeded w
  /\ drawn (snd (frames n (r, w))) = drawn w.
Proof.
  induction n as [| n (Hr & Hs & Hd)]; [repeat split |].
  unfold frames in *. rewrite Nat.iter_succ.
  destruct (Nat.iter n _ (r, w)) as [r' w']. cbn [fst snd] in *.
  unfold SimpleGradientRenderer.updateAnimation. cbn [fst snd].
  split; [exact Hr |].
  destruct (_debugAnimationDisabled w'); simpl; auto.
Qed.

(** C8: rendering a [cols] by [rows] engine at anchor [(x, y)] with cell
    size [cellSize] issues, between [push]/[noStroke] and [pop], for the
    cells taken column after column: nothing for a dead cell, and for each
    alive cell [(gx, gy)] one fill with the gradient colour sampled at the
    centre of the cell followed by one rectangle at
    [(x + gx * cellSize, y + gy * cellSize)] of side [cellSize]; so there
    are exactly as many rectangles as alive cells. *)
Theorem C8_renderMaskedGrid_draws_alive_cells
    (r : SimpleGradientRenderer.t) (engine : GoLEngine)
    (x y cellSize : number) (w : World) :
  shaped engine = true -> usable r = true ->
  let cmds := gridCells engine ≫= cellCommands r w engine x y cellSize in
  SimpleGradientRenderer.renderMaskedGrid r engine x y cellSize w
  = (Return tt, emitAll ([Push; NoStroke] ++ cmds ++ [Pop]) w)
  /\ length (List.filter isRect ([Push; NoStroke] ++ cmds ++ [Pop]))
     = length (List.filter (fun cell => aliveCell engine (fst cell) (snd cell))
                           (gridCells engine))
  /\ (forall gx gy, (gx, gy) ∈ gridCells engine ->
        aliveCell engine gx gy = true ->
        cellCommands r w engine x y cellSize (gx, gy)
        = [ Fill (mjoin (gradientAt r w
                           (x + ofZ gx * cellSize + cellSize / ofZ 2)%js
                           (y + ofZ gy * cellSize + cellSize / ofZ 2)%js !! 0%nat))
                 (mjoin (gradientAt r w
                           (x + ofZ gx * cellSize + cellSize / ofZ 2)%js
                           (y + ofZ gy * cellSize + cellSize / ofZ 2)%js !! 1%nat))
                 (mjoin (gradientAt r w
                           (x + ofZ gx * cellSize + cellSize / ofZ 2)%js
                           (y + ofZ gy * cellSize + cellSize / ofZ 2)%js !! 2%nat));
            Rect (x + ofZ gx * cellSize)%js (y + ofZ gy * cellSize)%js
                 cellSize cellSize ])
  /\ (forall gx gy, aliveCell engine gx gy = false ->
        cellCommands r w engine x y cellSize (gx, gy) = []).
Proof.
  intros Hsh Hu cmds. split; [| split; [| split]].
  - apply renderMaskedGrid_emits; assumption.
  - rewrite !List.filter_app, !length_app. simpl.
    unfold cmds. rewrite rects_count. lia.
  - intros gx gy _ Ha. unfold cellCommands. rewrite Ha. reflexivity.
  - intros gx gy Ha. unfold cellCommands. rewrite Ha. reflexivity.
Qed.

Lemma C8_renderMaskedGrid_witness :
  let cmds := gridCells engine32
              ≫= cellCommands renderer4 world0 engine32 (ofZ 10) (ofZ 20) (ofZ 3) in
  SimpleGradientRenderer.renderMaskedGrid renderer4 engine32 (ofZ 10) (ofZ 20) (ofZ 3) world0
  = (Return tt, emitAll ([Push; NoStroke] ++ cmds ++ [Pop]) world0)
  /\ length (List.filter isRect ([Push; NoStroke] ++ cmds ++ [Pop]))
     = length (List.filter (fun cell => aliveCell engine32 (fst cell) (snd cell))
                           (gridCells engine32))
  /\ (forall gx gy, (gx, gy) ∈ gridCells engine32 ->
        aliveCell engine32 gx gy = true ->
        cellCommands renderer4 world0 engine32 (ofZ 10) (ofZ 20) (ofZ 3) (gx, gy)
        = [ Fill (mjoin (gradientAt renderer4 world0
                           (ofZ 10 + ofZ gx * ofZ 3 + ofZ 3 / ofZ 2)%js
                           (ofZ 20 + ofZ gy * ofZ 3 + ofZ 3 / ofZ 2)%js !! 0%nat))
                 (mjoin (gradientAt renderer4 world0
                           (ofZ 10 + ofZ gx * ofZ 3 + ofZ 3 / ofZ 2)%js
                           (ofZ 20 + ofZ gy * ofZ 3 + ofZ 3 / ofZ 2)%js !! 1%nat))
                 (mjoin (gradientAt renderer4 world0
                           (ofZ 10 + ofZ gx * ofZ 3 + ofZ 3 / ofZ 2)%js
                           (ofZ 20 + ofZ gy * ofZ 3 + ofZ 3 / ofZ 2)%js !! 2%nat));
            Rect (ofZ 10 + ofZ gx * ofZ 3)%js (ofZ 20 + ofZ gy * ofZ 3)%js
                 (ofZ 3) (ofZ 3) ])
  /\ (forall gx gy, aliveCell engine32 gx gy = false ->
        cellCommands renderer4 world0 engine32 (ofZ 10) (ofZ 20) (ofZ 3) (gx, gy) = []).
Proof.
  apply (C8_renderMaskedGrid_draws_alive_cells renderer4 engine32
           (ofZ 10) (ofZ 20) (ofZ 3) world0).
  - reflexivity.
  - reflexivity.
Defined.

(** C9: [updateAnimation] leaves the renderer, and so its
    [animationOffset], unchanged; the constructor sets the offset to 0;
    after any number of frames [getGradientColor] returns for the same
    coordinates the colour it returned before them. *)
Theorem C9_updateAnimation_does_not_scroll
    (r : SimpleGradientRenderer.t) (w : World) (n : nat)
    (screenX screenY : number) :
  fst (SimpleGradientRenderer.updateAnimation r w) = r
  /\ fst (frames n (r, w)) = r
  /\ SimpleGradientRenderer.animationOffset (fst (frames n (r, w)))
     = SimpleGradientRenderer.animationOffset r
  /\ fst (SimpleGradientRenderer.getGradientColor
            (fst (frames n (r, w))) screenX screenY (snd (frames n (r, w))))
     = fst (SimpleGradientRenderer.getGradientColor r screenX screenY w)
  /\ (forall G host options w0,
        SimpleGradientRenderer.animationOffset
          (fst (SimpleGradientRenderer.new G host options w0)) = ofZ 0).
Proof.
  destruct (frames_spec n r w) as (Hr & Hs & _).
  split; [reflexivity |]. split; [exact Hr |].
  split; [rewrite Hr; reflexivity |]. split.
  - rewrite Hr. unfold SimpleGradientRenderer.getGradientColor.
    destruct (SimpleGradientRenderer.useCache r);
      destruct (SimpleGradientRenderer.gradientCache r);
      cbn [fst]; rewrite ?Hs; reflexivity.
  - intros G host options w0. unfold SimpleGradientRenderer.new.
    destruct (default true (SimpleGradientRenderer.opt_useCache options));
      [| reflexivity].
    destruct (GradientCache.new _ _ _ _ _ _ _). reflexivity.
Qed.

(** ** Further properties of the cache *)

(** Equal rationals have the same cache coordinate. *)
Lemma cacheCoord_Qeq (c : GradientCache.t) (x x' : Q) :
  (x == x')%Q ->
  GradientCache.cacheCoord c (Fin x) = GradientCache.cacheCoord c (Fin x').
Proof.
  intros Hx.
  destruct (Z.eq_dec (GradientCache.cacheSize c) 0) as [Hz | Hnz].
  - rewrite !cacheCoord_zero_size by exact Hz. reflexivity.
  - rewrite !cacheCoord_Fin by exact Hnz.
    assert (Qmult' x (1 # 2) = Qmult' x' (1 # 2)) as ->; [| reflexivity].
    apply Qred_complete. rewrite Hx. reflexivity.
Qed.

(** X1: bake and lookup round trip.  On a cache built with a positive size,
    the lookup at non-negative screen coordinates [(x, y)] returns the three
    colour bytes the pre-bake computed for the texture pixel of column
    [floor(x / 2) mod size] and row [floor(y / 2) mod size]: each texture
    pixel covers a 2 x 2 block of screen pixels. *)
Theorem X1_getColor_returns_the_baked_texel
    (G : GoogleColors) (host : P5) (size : Z)
    (pal : option (list (list number))) (scale seed : number) (w : World)
    (x y : Q) :
  0 < size -> (0 <= x)%Q -> (0 <= y)%Q ->
  let c := fst (GradientCache.new G host size pal scale seed w) in
  GradientCache.getColor c (Fin x) (Fin y)
  = Return (asTriple (texel c (Some seed)
                        (Qfloor (y * (1 # 2)) mod size)
                        (Qfloor (x * (1 # 2)) mod size))).
Proof.
  intros Hs Hx Hy c.
  set (ix := Qfloor (x * (1 # 2)) mod size).
  set (iy := Qfloor (y * (1 # 2)) mod size).
  assert (0 <= ix < size) as Hix by (apply Z.mod_pos_bound; exact Hs).
  assert (0 <= iy < size) as Hiy by (apply Z.mod_pos_bound; exact Hs).
  assert (GradientCache.cacheSize c = size) as Hsz by reflexivity.
  unfold c, GradientCache.new in *.
  set (this := {| GradientCache.p5 := host |}) in *.
  destruct (prebake_pixel seed this w ix iy 0) as (px & Hpx & _ & H0); try (cbn; lia).
  destruct (prebake_pixel seed this w ix iy 1) as (px1 & Hpx1 & _ & H1); try (cbn; lia).
  destruct (prebake_pixel seed this w ix iy 2) as (px2 & Hpx2 & _ & H2); try (cbn; lia).
  replace px1 with px in H1 by congruence.
  replace px2 with px in H2 by congruence.
  change (GradientCache.cacheSize this) with size in H0, H1, H2.
  rewrite (getColor_at _ px (Fin x) (Fin y) ix iy Hpx).
  - rewrite Hsz.
    replace ((ix + iy * size) * 4 + 0) with (4 * (ix + iy * size) + 0) by lia.
    replace ((ix + iy * size) * 4 + 1) with (4 * (ix + iy * size) + 1) by lia.
    replace ((ix + iy * size) * 4 + 2) with (4 * (ix + iy * size) + 2) by lia.
    rewrite H0, H1, H2. reflexivity.
  - rewrite cacheCoord_nonneg by (rewrite ?Hsz; assumption). rewrite Hsz. reflexivity.
  - rewrite cacheCoord_nonneg by (rewrite ?Hsz; assumption). rewrite Hsz. reflexivity.
  - rewrite Hsz. nia.
Qed.

Lemma X1_getColor_returns_the_baked_texel_witness :
  let c := fst (GradientCache.new googleColors rampP5 4 None (Fin (1 # 4))
                                  (ofZ 12345) world0) in
  GradientCache.getColor c (Fin (21 # 2)) (Fin 3)
  = Return (asTriple (texel c (Some (ofZ 12345))
                        (Qfloor (3 * (1 # 2)) mod 4)
                        (Qfloor ((21 # 2) * (1 # 2)) mod 4))).
Proof.
  apply (X1_getColor_returns_the_baked_texel googleColors rampP5 4 None
           (Fin (1 # 4)) (ofZ 12345) world0 (21 # 2) 3).
  - lia.
  - vm_compute. discriminate.
  - vm_compute. discriminate.
Defined.

(** X2: the animation is periodic in the time offset, on half-integers.
    For a vertical coordinate [a / 2] and time offsets [b / 2] and
    [b / 2 + 2 * size * k], with [a], [b] and [b + 4 * size * k] integers
    of magnitude at most 2^52 (the code's sum [screenY + timeOffset] is
    then exact) and both shifted coordinates non-negative, the animated
    colour is the same for the two offsets. *)
Theorem X2_getAnimatedColor_periodic_in_time
    (c : GradientCache.t) (screenX : number) (a b k : Z) :
  Z.abs a <= 2 ^ 52 -> Z.abs b <= 2 ^ 52 ->
  Z.abs (b + 4 * GradientCache.cacheSize c * k) <= 2 ^ 52 ->
  0 <= a + b -> 0 <= a + b + 4 * GradientCache.cacheSize c * k ->
  GradientCache.getAnimatedColor c screenX (Fin (inject_Z a / 2))
    (Fin (inject_Z (b + 4 * GradientCache.cacheSize c * k) / 2))
  = GradientCache.getAnimatedColor c screenX (Fin (inject_Z a / 2))
      (Fin (inject_Z b / 2)).
Proof.
  intros _ _ _ H0 Hk. unfold GradientCache.getAnimatedColor.
  apply getColor_coord; [reflexivity |].
  cbn [add]. unfold Qplus'.
  set (s := GradientCache.cacheSize c) in *.
  assert (inject_Z a / 2 + inject_Z b / 2 == inject_Z (a + b) / 2)%Q as Hsum
    by (rewrite inject_Z_plus; field).
  assert (0 <= inject_Z a / 2 + inject_Z b / 2)%Q as Hnn.
  { rewrite Hsum. apply Qle_shift_div_l; [reflexivity |].
    rewrite Qmult_0_l. change 0%Q with (inject_Z 0). rewrite <- Zle_Qle. exact H0. }
  assert (inject_Z a / 2 + inject_Z (b + 4 * s * k) / 2
          == inject_Z a / 2 + inject_Z b / 2 + inject_Z (2 * s * k))%Q as Hshift.
  { rewrite !inject_Z_plus, !inject_Z_mult.
    change (inject_Z 4) with 4%Q. change (inject_Z 2) with 2%Q. field. }
  rewrite (cacheCoord_Qeq c _ (inject_Z a / 2 + inject_Z b / 2 + inject_Z (2 * s * k))).
  - rewrite (cacheCoord_Qeq c (Qred (inject_Z a / 2 + inject_Z b / 2))
               (inject_Z a / 2 + inject_Z b / 2)) by apply Qred_correct.
    apply cacheCoord_tile; [exact Hnn |].
    fold s. rewrite <- Hshift.
    assert (inject_Z a / 2 + inject_Z (b + 4 * s * k) / 2
            == inject_Z (a + b + 4 * s * k) / 2)%Q as ->
      by (rewrite !inject_Z_plus; field).
    apply Qle_shift_div_l; [reflexivity |].
    rewrite Qmult_0_l. change 0%Q with (inject_Z 0). rewrite <- Zle_Qle. exact Hk.
  - rewrite Qred_correct. exact Hshift.
Qed.

Lemma X2_getAnimatedColor_periodic_in_time_witness :
  GradientCache.getAnimatedColor cache4 (ofZ 5) (Fin (inject_Z 6 / 2))
    (Fin (inject_Z (-1 + 4 * GradientCache.cacheSize cache4 * 7) / 2))
  = GradientCache.getAnimatedColor cache4 (ofZ 5) (Fin (inject_Z 6 / 2))
      (Fin (inject_Z (-1) / 2)).
Proof.
  apply (X2_getAnimatedColor_periodic_in_time cache4 (ofZ 5) 6 (-1) 7).
  - vm_compute. discriminate.
  - vm_compute. discriminate.
  - vm_compute. discriminate.
  - lia.
  - vm_compute. discriminate.
Defined.

(** X3: a coordinate that is not a number passes the clamp.  On a cache
    that holds its pixels, a lookup with a NaN coordinate does not throw
    and is not clamped into the texture: it returns three [undefined]
    values. *)
Theorem X3_getColor_NaN_coordinate_is_undefined
    (c : GradientCache.t) (px : list Z) (other : number) :
  GradientCache.cachePixels c = Some px ->
  GradientCache.getColor c NaN other = Return [None; None; None]
  /\ GradientCache.getColor c other NaN = Return [None; None; None].
Proof.
  intros Hpx. unfold GradientCache.getColor. rewrite Hpx.
  rewrite cacheCoord_NaN. split; [reflexivity |].
  destruct (GradientCache.cacheCoord c other); reflexivity.
Qed.

Lemma X3_getColor_NaN_coordinate_witness :
  GradientCache.getColor cache4 NaN (ofZ 3) = Return [None; None; None]
  /\ GradientCache.getColor cache4 (ofZ 3) NaN = Return [None; None; None].
Proof.
  apply (X3_getColor_NaN_coordinate_is_undefined cache4
           (default [] (GradientCache.cachePixels cache4)) (ofZ 3)).
  reflexivity.
Defined.

(** X4: with an empty palette every noise value, NaN included, maps to
    white: the palette length 0 makes both palette indices NaN, and the
    fallback finds no first colour. *)
Theorem X4_interpolateColor_empty_palette_is_white
    (c : GradientCache.t) (t0 : number) :
  GradientCache.palette c = [] ->
  GradientCache.interpolateColor c t0 = GradientCache.white.
Proof.
  intros Hp. unfold GradientCache.interpolateColor, GradientCache.fallback.
  rewrite Hp. destruct t0 as [| q]; reflexivity.
Qed.

Lemma X4_interpolateColor_empty_palette_witness :
  GradientCache.interpolateColor cacheNoPalette (Fin (3 # 10)) = GradientCache.white.
Proof.
  apply (X4_interpolateColor_empty_palette_is_white cacheNoPalette (Fin (3 # 10))).
  reflexivity.
Defined.

(** ** Further properties of the colour mapping *)

Lemma within_inv (lo hi : Q) (v : number) :
  within lo hi v = true -> exists q, v = Fin q /\ (lo <= q)%Q /\ (q <= hi)%Q.
Proof.
  destruct v as [| q]; [discriminate |]. simpl. intros H.
  apply andb_prop in H as [H1 H2]. apply Qle_bool_iff in H1, H2.
  exists q. auto.
Qed.

Lemma channelsWithin_channel (lo hi : Q) (col : list number) (k : nat) :
  channelsWithin lo hi col = true -> (k < length col)%nat ->
  exists q, GradientCache.channel col k = Fin q /\ (lo <= q)%Q /\ (q <= hi)%Q.
Proof.
  intros Hall Hk.
  destruct (lookup_lt_is_Some_2 col k Hk) as [v Hv].
  unfold channelsWithin in Hall. rewrite forallb_forall in Hall.
  specialize (Hall v). rewrite <- list_elem_of_In in Hall.
  specialize (Hall (list_elem_of_lookup_2 _ _ _ Hv)).
  unfold GradientCache.channel. rewrite Hv. apply within_inv. exact Hall.
Qed.

Lemma paletteWithin_colour (lo hi : Q) (p : list (list number))
    (col : list number) :
  paletteWithin lo hi p = true -> col ∈ p -> channelsWithin lo hi col = true.
Proof.
  unfold paletteWithin. rewrite forallb_forall. intros Hall Hin.
  apply Hall. apply list_elem_of_In. exact Hin.
Qed.

(** p5's [lerp] at a fraction in [0,1] stays between its end points. *)
Lemma lerp_within (lo hi a b u : Q) :
  (lo <= a)%Q -> (a <= hi)%Q -> (lo <= b)%Q -> (b <= hi)%Q ->
  (0 <= u)%Q -> (u <= 1)%Q ->
  within lo hi (lerp (Fin a) (Fin b) (Fin u)) = true.
Proof.
  intros Hla Hah Hlb Hbh Hu0 Hu1.
  cbn [lerp within add mul sub].
  apply andb_true_intro. rewrite !Qle_bool_iff.
  unfold Qplus', Qmult', Qminus'.
  rewrite !Qred_correct.
  assert (0 <= 1 - u)%Q as Hv by (unfold Qminus; rewrite <- Qle_minus_iff; exact Hu1).
  setoid_replace (u * (b - a) + a)%Q with (u * b + (1 - u) * a)%Q
    using relation Qeq by ring.
  split.
  - setoid_replace lo with (u * lo + (1 - u) * lo)%Q using relation Qeq by ring.
    apply Qplus_le_compat; rewrite !(Qmult_comm _ lo), ?(Qmult_comm u b),
      ?(Qmult_comm (1 - u) a); apply Qmult_le_compat_r; assumption.
  - setoid_replace hi with (u * hi + (1 - u) * hi)%Q using relation Qeq by ring.
    apply Qplus_le_compat; rewrite !(Qmult_comm _ hi), ?(Qmult_comm u b),
      ?(Qmult_comm (1 - u) a); apply Qmult_le_compat_r; assumption.
Qed.

Lemma frac_bounds (pos : Q) :
  (0 <= Qred (pos - inject_Z (Qfloor pos)))%Q
  /\ (Qred (pos - inject_Z (Qfloor pos)) <= 1)%Q.
Proof.
  destruct (Qfloor_bounds pos) as [Hlo Hhi].
  rewrite Qred_correct. split.
  - unfold Qminus. rewrite <- Qle_minus_iff. exact Hlo.
  - apply Qlt_le_weak.
    apply (Qplus_lt_l _ _ (inject_Z (Qfloor pos))).
    setoid_replace (pos - inject_Z (Qfloor pos) + inject_Z (Qfloor pos))%Q
      with pos using relation Qeq by ring.
    rewrite inject_Z_plus in Hhi.
    setoid_replace (1 + inject_Z (Qfloor pos))%Q
      with (inject_Z (Qfloor pos) + inject_Z 1)%Q using relation Qeq by ring.
    exact Hhi.
Qed.

(** The two palette colours a segment interpolates, on a well-formed
    palette. *)
Lemma specSegment_colours (host : P5) (p : list (list number)) (i1 : Z)
    (localT : number) :
  wellFormedPalette p = true ->
  exists c1 c2,
    p !! Z.to_nat (i1 mod Z.of_nat (length p)) = Some c1
    /\ c1 ∈ p /\ c2 ∈ p
    /\ (3 <= length c1)%nat /\ (3 <= length c2)%nat
    /\ specSegment host p i1 localT
       = [ p5_lerp host (GradientCache.channel c1 0) (GradientCache.channel c2 0) localT;
           p5_lerp host (GradientCache.channel c1 1) (GradientCache.channel c2 1) localT;
           p5_lerp host (GradientCache.channel c1 2) (GradientCache.channel c2 2) localT ].
Proof.
  intros Hwf.
  pose proof (wellFormedPalette_length _ Hwf) as Hn.
  pose proof (Z.mod_pos_bound i1 _ Hn) as H1.
  pose proof (Z.mod_pos_bound (i1 + 1) _ Hn) as H2.
  destruct (wellFormedPalette_lookup _ _ Hwf H1) as (c1 & Hc1 & Hl1).
  destruct (wellFormedPalette_lookup _ _ Hwf H2) as (c2 & Hc2 & Hl2).
  apply Nat.ltb_ge in Hl1, Hl2.
  exists c1, c2. unfold specSegment. rewrite Hc1, Hc2.
  repeat split; try assumption;
    eapply list_elem_of_lookup_2; eassumption.
Qed.

(** X5: interpolated colours stay within the palette's range.  With p5's
    [lerp], a well-formed palette whose channels all lie in [lo, hi] and a
    noise value [t >= 0], the colour of [t] has three channels, each a
    finite number in [lo, hi]. *)
Theorem X5_interpolateColor_within_palette_range
    (c : GradientCache.t) (lo hi t0 : Q) :
  p5_lerp (GradientCache.p5 c) = lerp ->
  wellFormedPalette (GradientCache.palette c) = true ->
  paletteWithin lo hi (GradientCache.palette c) = true ->
  1 <= GradientCache.controlPoints c ->
  (0 <= t0)%Q ->
  channelsWithin lo hi (GradientCache.interpolateColor c (Fin t0)) = true
  /\ length (GradientCache.interpolateColor c (Fin t0)) = 3%nat.
Proof.
  intros Hlerp Hwf Hall Hcp Ht.
  rewrite (interpolateColor_segment c t0 Hwf Hcp Ht).
  set (pos := (t0 * inject_Z (GradientCache.controlPoints c - 1))%Q).
  destruct (specSegment_colours (GradientCache.p5 c) (GradientCache.palette c)
              (Qfloor pos) (Fin (Qred (pos - inject_Z (Qfloor pos)))) Hwf)
    as (c1 & c2 & _ & Hin1 & Hin2 & Hl1 & Hl2 & ->).
  split; [| reflexivity].
  pose proof (paletteWithin_colour lo hi _ c1 Hall Hin1) as Hw1.
  pose proof (paletteWithin_colour lo hi _ c2 Hall Hin2) as Hw2.
  destruct (frac_bounds pos) as [Hu0 Hu1].
  rewrite Hlerp. unfold channelsWithin. cbn [forallb].
  destruct (channelsWithin_channel lo hi c1 0 Hw1) as (a0 & -> & ? & ?); [lia |].
  destruct (channelsWithin_channel lo hi c2 0 Hw2) as (b0 & -> & ? & ?); [lia |].
  destruct (channelsWithin_channel lo hi c1 1 Hw1) as (a1 & -> & ? & ?); [lia |].
  destruct (channelsWithin_channel lo hi c2 1 Hw2) as (b1 & -> & ? & ?); [lia |].
  destruct (channelsWithin_channel lo hi c1 2 Hw1) as (a2 & -> & ? & ?); [lia |].
  destruct (channelsWithin_channel lo hi c2 2 Hw2) as (b2 & -> & ? & ?); [lia |].
  rewrite !lerp_within by assumption. reflexivity.
Qed.

Lemma X5_interpolateColor_within_palette_range_witness :
  channelsWithin 0 255 (GradientCache.interpolateColor cache4 (Fin (3 # 10))) = true
  /\ length (GradientCache.interpolateColor cache4 (Fin (3 # 10))) = 3%nat.
Proof.
  apply (X5_interpolateColor_within_palette_range cache4 0 255 (3 # 10)).
  - reflexivity.
  - reflexivity.
  - reflexivity.
  - vm_compute. discriminate.
  - vm_compute. discriminate.
Defined.

Lemma lerp_at_zero (a b : Q) :
  JS.eqb (lerp (Fin a) (Fin b) (Fin 0)) (Fin a) = true.
Proof.
  cbn [lerp JS.eqb add mul sub]. apply Qeq_bool_iff.
  unfold Qplus', Qmult', Qminus'. rewrite !Qred_correct. ring.
Qed.

(** X6: the control points carry the palette colours exactly.  With p5's
    [lerp] and a well-formed palette of [n] finite colours, the noise value
    [j / 19], for an integer [j] from 0 to 19, maps to palette colour
    [j mod n] itself: the colours cycle through the palette along [0,1],
    and the noise value 1 gives colour [19 mod n], not the last one. *)
Theorem X6_interpolateColor_at_control_points
    (c : GradientCache.t) (lo hi : Q) (j : Z) :
  GradientCache.controlPoints c = 20 ->
  p5_lerp (GradientCache.p5 c) = lerp ->
  wellFormedPalette (GradientCache.palette c) = true ->
  paletteWithin lo hi (GradientCache.palette c) = true ->
  0 <= j <= 19 ->
  sameColor
    (GradientCache.interpolateColor c (Fin (inject_Z j / 19)))
    (rgbOf (default []
              (GradientCache.palette c
                 !! Z.to_nat (j mod Z.of_nat (length (GradientCache.palette c))))))
  = true.
Proof.
  intros Hcp Hlerp Hwf Hall Hj.
  assert (0 <= inject_Z j / 19)%Q as Ht.
  { apply Qle_shift_div_l; [reflexivity |]. rewrite Qmult_0_l.
    change 0%Q with (inject_Z 0). rewrite <- Zle_Qle. lia. }
  rewrite (interpolateColor_segment c _ Hwf) by (rewrite ?Hcp; first [lia | exact Ht]).
  rewrite Hcp. change (inject_Z (20 - 1)) with 19%Q.
  assert (inject_Z j / 19 * 19 == inject_Z j)%Q as Hpos.
  { field. }
  rewrite (Qfloor_comp _ _ Hpos), Qfloor_Z.
  assert (Qred (inject_Z j / 19 * 19 - inject_Z j) = 0%Q) as ->.
  { change 0%Q with (Qred 0). apply Qred_complete. rewrite Hpos. ring. }
  destruct (specSegment_colours (GradientCache.p5 c) (GradientCache.palette c)
              j (Fin 0) Hwf)
    as (c1 & c2 & Hc1 & Hin1 & Hin2 & Hl1 & Hl2 & ->).
  rewrite Hc1. change (default [] (Some c1)) with c1. rewrite Hlerp.
  pose proof (paletteWithin_colour lo hi _ c1 Hall Hin1) as Hw1.
  pose proof (paletteWithin_colour lo hi _ c2 Hall Hin2) as Hw2.
  unfold rgbOf.
  destruct (channelsWithin_channel lo hi c1 0 Hw1) as (a0 & -> & _); [lia |].
  destruct (channelsWithin_channel lo hi c2 0 Hw2) as (b0 & -> & _); [lia |].
  destruct (channelsWithin_channel lo hi c1 1 Hw1) as (a1 & -> & _); [lia |].
  destruct (channelsWithin_channel lo hi c2 1 Hw2) as (b1 & -> & _); [lia |].
  destruct (channelsWithin_channel lo hi c1 2 Hw1) as (a2 & -> & _); [lia |].
  destruct (channelsWithin_channel lo hi c2 2 Hw2) as (b2 & -> & _); [lia |].
  cbn [sameColor]. rewrite !lerp_at_zero. reflexivity.
Qed.

Lemma X6_interpolateColor_at_control_points_witness :
  sameColor
    (GradientCache.interpolateColor cache4 (Fin (inject_Z 19 / 19)))
    (rgbOf (default []
              (GradientCache.palette cache4
                 !! Z.to_nat (19 mod Z.of_nat (length (GradientCache.palette cache4))))))
  = true.
Proof.
  apply (X6_interpolateColor_at_control_points cache4 0 255 19).
  - reflexivity.
  - reflexivity.
  - reflexivity.
  - reflexivity.
  - lia.
Defined.

(** ** Life cycle and global effects of the cache *)

(** X7: use after dispose.  Once a cache built by the constructor is
    disposed, every lookup throws (the pixel array is [null]) instead of
    returning a colour; disposing again changes nothing; and [regenerate]
    on the disposed cache rebuilds exactly the cache the constructor builds
    for the new seed, which holds a full texture again when the size is
    positive. *)
Theorem X7_dispose_then_lookup_throws
    (G : GoogleColors) (host : P5) (size : Z)
    (pal : option (list (list number))) (scale seed newSeed : number)
    (w w' : World) (x y timeOffset : number) :
  let c := fst (GradientCache.new G host size pal scale seed w) in
  GradientCache.getColor (GradientCache.dispose c) x y = TypeError
  /\ GradientCache.getAnimatedColor (GradientCache.dispose c) x y timeOffset
     = TypeError
  /\ GradientCache.dispose (GradientCache.dispose c) = GradientCache.dispose c
  /\ GradientCache.regenerate newSeed (GradientCache.dispose c) w'
     = GradientCache.new G host size pal scale newSeed w'
  /\ (0 < size ->
      baked (fst (GradientCache.regenerate newSeed (GradientCache.dispose c) w'))
      = true).
Proof.
  intros c. repeat split.
  intros Hs. apply regenerate_baked. exact Hs.
Qed.

Lemma X7_dispose_then_lookup_throws_witness :
  let c := fst (GradientCache.new googleColors rampP5 4 None (Fin (1 # 4))
                                  (ofZ 12345) world0) in
  GradientCache.getColor (GradientCache.dispose c) (ofZ 1) (ofZ 2) = TypeError
  /\ GradientCache.getAnimatedColor (GradientCache.dispose c) (ofZ 1) (ofZ 2) (ofZ 3)
     = TypeError
  /\ GradientCache.dispose (GradientCache.dispose c) = GradientCache.dispose c
  /\ GradientCache.regenerate (ofZ 9) (GradientCache.dispose c) world0
     = GradientCache.new googleColors rampP5 4 None (Fin (1 # 4)) (ofZ 9) world0
  /\ (0 < 4 ->
      baked (fst (GradientCache.regenerate (ofZ 9) (GradientCache.dispose c) world0))
      = true).
Proof.
  apply (X7_dispose_then_lookup_throws googleColors rampP5 4 None (Fin (1 # 4))
           (ofZ 12345) (ofZ 9) world0 world0 (ofZ 1) (ofZ 2) (ofZ 3)).
Defined.

(** X8: building a cache reseeds the noise everybody shares.  The
    constructor and [regenerate] change the global state only by setting
    p5's noise seed; a renderer that samples the noise at run time (no
    cache) computes its colours under that seed from then on. *)
Theorem X8_building_a_cache_reseeds_the_runtime_noise
    (G : GoogleColors) (host : P5) (size : Z)
    (pal : option (list (list number))) (scale seed : number) (w : World)
    (r : SimpleGradientRenderer.t) (x y : number) :
  SimpleGradientRenderer.useCache r = false ->
  let w' := snd (GradientCache.new G host size pal scale seed w) in
  w' = noiseSeed seed w
  /\ drawn w' = drawn w
  /\ _debugAnimationDisabled w' = _debugAnimationDisabled w
  /\ (forall c newSeed,
        snd (GradientCache.regenerate newSeed c w) = noiseSeed newSeed w)
  /\ fst (SimpleGradientRenderer.getGradientColor r x y w')
     = Return (Some <$> SimpleGradientRenderer._getGradientColorRuntime
                          r (Some seed) x y).
Proof.
  intros Hu w'. repeat split.
  unfold SimpleGradientRenderer.getGradientColor. rewrite Hu. reflexivity.
Qed.

Lemma X8_building_a_cache_reseeds_witness :
  let w' := snd (GradientCache.new googleColors rampP5 2 None (Fin (1 # 4))
                                   (ofZ 7) world0) in
  w' = noiseSeed (ofZ 7) world0
  /\ drawn w' = drawn world0
  /\ _debugAnimationDisabled w' = _debugAnimationDisabled world0
  /\ (forall c newSeed,
        snd (GradientCache.regenerate newSeed c world0) = noiseSeed newSeed world0)
  /\ fst (SimpleGradientRenderer.getGradientColor rendererRuntime (ofZ 1) (ofZ 2) w')
     = Return (Some <$> SimpleGradientRenderer._getGradientColorRuntime
                          rendererRuntime (Some (ofZ 7)) (ofZ 1) (ofZ 2)).
Proof.
  apply (X8_building_a_cache_reseeds_the_runtime_noise googleColors rampP5 2 None
           (Fin (1 # 4)) (ofZ 7) world0 rendererRuntime (ofZ 1) (ofZ 2)).
  reflexivity.
Defined.

(** ** Further properties of the renderer *)

Lemma new_usable (G : GoogleColors) (host : P5)
    (options : SimpleGradientRenderer.Options) (w : World) :
  usable (fst (SimpleGradientRenderer.new G host options w)) = true.
Proof.
  unfold SimpleGradientRenderer.new.
  destruct (default true (SimpleGradientRenderer.opt_useCache options));
    [| reflexivity].
  unfold GradientCache.new, GradientCache.prebake. reflexivity.
Qed.

(** X9: a renderer built by the constructor renders any well-shaped grid.
    Whatever the options, the host and the global state, its colour lookups
    cannot throw, so [renderMaskedGrid] on a [cols] by [rows] engine returns
    normally, with a balanced [push] ... [pop] around the cells. *)
Theorem X9_constructed_renderer_renders
    (G : GoogleColors) (host : P5) (options : SimpleGradientRenderer.Options)
    (w0 w : World) (engine : GoLEngine) (x y cellSize : number) :
  shaped engine = true ->
  let r := fst (SimpleGradientRenderer.new G host options w0) in
  usable r = true
  /\ SimpleGradientRenderer.renderMaskedGrid r engine x y cellSize w
     = (Return tt,
        emitAll ([Push; NoStroke]
                 ++ (gridCells engine ≫= cellCommands r w engine x y cellSize)
                 ++ [Pop]) w).
Proof.
  intros Hsh r. split; [apply new_usable |].
  apply renderMaskedGrid_emits; [exact Hsh | apply new_usable].
Qed.

Lemma X9_constructed_renderer_renders_witness :
  let r := fst (SimpleGradientRenderer.new googleColors rampP5
                  {| SimpleGradientRenderer.opt_useCache := Some true;
                     SimpleGradientRenderer.opt_cacheSize := Some 2 |} world0) in
  usable r = true
  /\ SimpleGradientRenderer.renderMaskedGrid r engine32 (ofZ 0) (ofZ 0) (ofZ 8) world0
     = (Return tt,
        emitAll ([Push; NoStroke]
                 ++ (gridCells engine32
                     ≫= cellCommands r world0 engine32 (ofZ 0) (ofZ 0) (ofZ 8))
                 ++ [Pop]) world0).
Proof.
  apply (X9_constructed_renderer_renders googleColors rampP5
           {| SimpleGradientRenderer.opt_useCache := Some true;
              SimpleGradientRenderer.opt_cacheSize := Some 2 |}
           world0 world0 engine32 (ofZ 0) (ofZ 0) (ofZ 8)).
  reflexivity.
Defined.

(** X10: a disposed renderer keeps answering.  After [dispose] the
    renderer has no cache; [getGradientColor] then takes the runtime path:
    it returns the colour computed from the noise under the current seed
    and cannot throw.  Disposing again changes nothing. *)
Theorem X10_disposed_renderer_uses_runtime_noise
    (r : SimpleGradientRenderer.t) (x y : number) (w : World) :
  SimpleGradientRenderer.getGradientColor (SimpleGradientRenderer.dispose r) x y w
  = (Return (Some <$> SimpleGradientRenderer._getGradientColorRuntime
                        r (noiseSeeded w) x y), w)
  /\ usable (SimpleGradientRenderer.dispose r) = true
  /\ SimpleGradientRenderer.dispose (SimpleGradientRenderer.dispose r)
     = SimpleGradientRenderer.dispose r.
Proof.
  unfold SimpleGradientRenderer.dispose, usable,
    SimpleGradientRenderer.getGradientColor.
  destruct (SimpleGradientRenderer.gradientCache r) as [cache |] eqn:E; cbn.
  - destruct (SimpleGradientRenderer.useCache r); repeat split.
  - rewrite E. destruct (SimpleGradientRenderer.useCache r); repeat split.
Qed.

(** A loop throws as soon as one of its bodies always throws. *)
Lemma forEach_TypeError {A : Type} (l : list A) (body : A -> M unit) (a : A) :
  a ∈ l -> (forall w, fst (body a w) = TypeError) ->
  forall w, fst (forEach l body w) = TypeError.
Proof.
  intros Hin Hthrow.
  induction l as [| b l IH]; intros w; [inversion Hin |].
  cbn [forEach]. unfold bind.
  destruct (body b w) as [[[] |] w1] eqn:E; [| reflexivity].
  apply elem_of_cons in Hin as [-> | Hin].
  - pose proof (Hthrow w) as H. rewrite E in H. discriminate.
  - apply IH. exact Hin.
Qed.

Lemma emitAll_nil (w : World) : emitAll [] w = w.
Proof. destruct w. unfold emitAll; simpl. rewrite app_nil_r. reflexivity. Qed.

Lemma forEach_addsNoPop {A : Type} (l : list A) (body : A -> M unit) :
  (forall a, addsNoPop (body a)) -> addsNoPop (forEach l body).
Proof.
  intros Hbody. induction l as [| b l IH]; intros w.
  - exists []. split; [symmetry; apply emitAll_nil | apply not_elem_of_nil].
  - cbn [forEach]. unfold bind.
    destruct (Hbody b w) as (cs1 & H1 & Hn1).
    destruct (body b w) as [[[] |] w1]; cbn [snd] in H1; subst w1.
    + destruct (IH (emitAll cs1 w)) as (cs2 & H2 & Hn2).
      exists (cs1 ++ cs2). rewrite H2, emitAll_app. split; [reflexivity |].
      rewrite elem_of_app. tauto.
    + exists cs1. auto.
Qed.

Lemma renderCell_addsNoPop (r : SimpleGradientRenderer.t) (engine : GoLEngine)
    (x y cellSize : number) (gx gy : Z) :
  addsNoPop (SimpleGradientRenderer.renderCell r engine x y cellSize gx gy).
Proof.
  intros w.
  unfold SimpleGradientRenderer.renderCell, SimpleGradientRenderer.isAlive, bind.
  destruct (current engine !! Z.to_nat gx) as [column |]; cbn [throw ret];
    [| exists []; split; [symmetry; apply emitAll_nil | apply not_elem_of_nil]].
  destruct (match column !! Z.to_nat gy with
            | Some c => c =? SimpleGradientRenderer.ALIVE
            | None => false
            end);
    [| exists []; split; [symmetry; apply emitAll_nil | apply not_elem_of_nil]].
  assert (forall sx sy,
            snd (SimpleGradientRenderer.getGradientColor r sx sy w) = w) as Hw.
  { intros sx sy. unfold SimpleGradientRenderer.getGradientColor.
    destruct (SimpleGradientRenderer.useCache r);
      destruct (SimpleGradientRenderer.gradientCache r); reflexivity. }
  match goal with
  | |- context [SimpleGradientRenderer.getGradientColor r ?sx ?sy w] =>
      specialize (Hw sx sy);
      destruct (SimpleGradientRenderer.getGradientColor r sx sy w) as [[color |] w1]
  end; cbn [snd] in Hw; subst w1.
  - eexists [_; _]. unfold emit. cbn [snd]. rewrite !draw_emitAll, emitAll_app.
    split; [reflexivity |].
    intros Hin. apply elem_of_cons in Hin as [Hin | Hin]; [discriminate |].
    apply elem_of_cons in Hin as [Hin | Hin]; [discriminate |].
    inversion Hin.
  - exists []. split; [symmetry; apply emitAll_nil | apply not_elem_of_nil].
Qed.

(** X11: a grid buffer with a missing column.  When [engine.current] has no
    column at some index below [cols] and there is at least one row,
    [renderMaskedGrid] throws a TypeError; the drawing calls made by then
    start with [push], [noStroke] and contain no [pop]: the drawing state
    pushed is left on p5's stack. *)
Theorem X11_renderMaskedGrid_missing_column_throws
    (r : SimpleGradientRenderer.t) (engine : GoLEngine)
    (x y cellSize : number) (w : World) (gx : Z) :
  0 <= gx < cols engine -> 0 < rows engine ->
  current engine !! Z.to_nat gx = None ->
  fst (SimpleGradientRenderer.renderMaskedGrid r engine x y cellSize w) = TypeError
  /\ exists cs,
       snd (SimpleGradientRenderer.renderMaskedGrid r engine x y cellSize w)
       = emitAll (Push :: NoStroke :: cs) w
       /\ Pop ∉ cs.
Proof.
  intros Hgx Hrows Hcol.
  unfold SimpleGradientRenderer.renderMaskedGrid.
  rewrite !emit_bind, !draw_emitAll, emitAll_app.
  set (loop := forEach (seqZ 0 (cols engine)) _).
  assert (forall w1, fst (loop w1) = TypeError) as Hthrow.
  { apply (forEach_TypeError _ _ gx); [apply elem_of_seqZ; lia |].
    intros w1. rewrite (seqZ_cons 0 (rows engine)) by exact Hrows.
    cbn [forEach]. unfold bind at 1.
    unfold SimpleGradientRenderer.renderCell, SimpleGradientRenderer.isAlive,
      bind, throw.
    rewrite Hcol. reflexivity. }
  assert (addsNoPop loop) as Hno.
  { apply forEach_addsNoPop. intros gx'.
    apply forEach_addsNoPop. intros gy'. apply renderCell_addsNoPop. }
  specialize (Hthrow (emitAll ([Push] ++ [NoStroke]) w)).
  destruct (Hno (emitAll ([Push] ++ [NoStroke]) w)) as (cs & Hcs & Hpop).
  unfold bind.
  destruct (loop (emitAll ([Push] ++ [NoStroke]) w)) as [[[] |] w1];
    cbn [fst snd] in *; [discriminate |].
  split; [reflexivity |].
  exists cs. rewrite Hcs, emitAll_app. auto.
Qed.

Lemma X11_renderMaskedGrid_missing_column_witness :
  fst (SimpleGradientRenderer.renderMaskedGrid renderer4 engineShort
         (ofZ 0) (ofZ 0) (ofZ 8) world0) = TypeError
  /\ exists cs,
       snd (SimpleGradientRenderer.renderMaskedGrid renderer4 engineShort
              (ofZ 0) (ofZ 0) (ofZ 8) world0)
       = emitAll (Push :: NoStroke :: cs) world0
       /\ Pop ∉ cs.
Proof.
  apply (X11_renderMaskedGrid_missing_column_throws renderer4 engineShort
           (ofZ 0) (ofZ 0) (ofZ 8) world0 1).
  - simpl. lia.
  - simpl. lia.
  - reflexivity.
Defined.

Lemma forEach_skip {A : Type} (l : list A) (body : A -> M unit) (w : World) :
  (forall a w1, body a w1 = (Return tt, w1)) ->
  forEach l body w = (Return tt, w).
Proof.
  intros Hbody. induction l as [| a l IH]; [reflexivity |].
  cbn [forEach]. unfold bind. rewrite Hbody. exact IH.
Qed.

(** X12: an empty grid.  When [cols] or [rows] is not positive,
    [renderMaskedGrid] draws nothing between [push], [noStroke] and [pop]
    and returns normally, whatever the renderer and whatever the engine's
    buffer holds: the buffer is not read. *)
Theorem X12_renderMaskedGrid_empty_grid
    (r : SimpleGradientRenderer.t) (engine : GoLEngine)
    (x y cellSize : number) (w : World) :
  cols engine <= 0 \/ rows engine <= 0 ->
  SimpleGradientRenderer.renderMaskedGrid r engine x y cellSize w
  = (Return tt, emitAll [Push; NoStroke; Pop] w).
Proof.
  intros H. unfold SimpleGradientRenderer.renderMaskedGrid.
  rewrite !emit_bind, !draw_emitAll, emitAll_app.
  unfold bind at 1.
  assert (forall w1,
            forEach (seqZ 0 (cols engine))
              (fun gx => forEach (seqZ 0 (rows engine))
                 (fun gy => SimpleGradientRenderer.renderCell r engine x y
                              cellSize gx gy)) w1
            = (Return tt, w1)) as ->.
  { intros w1. destruct H as [Hc | Hr].
    - rewrite (seqZ_nil 0 (cols engine)) by exact Hc. reflexivity.
    - apply forEach_skip. intros gx w2.
      rewrite (seqZ_nil 0 (rows engine)) by exact Hr. reflexivity. }
  unfold emit. rewrite draw_emitAll, emitAll_app. reflexivity.
Qed.

Lemma X12_renderMaskedGrid_empty_grid_witness :
  SimpleGradientRenderer.renderMaskedGrid rendererRuntime
    {| cols := 3; rows := 0; current := [] |} (ofZ 0) (ofZ 0) (ofZ 8) world0
  = (Return tt, emitAll [Push; NoStroke; Pop] world0).
Proof.
  apply (X12_renderMaskedGrid_empty_grid rendererRuntime
           {| cols := 3; rows := 0; current := [] |} (ofZ 0) (ofZ 0) (ofZ 8) world0).
  right. simpl. lia.
Defined.

Lemma gradientAt_seed (r : SimpleGradientRenderer.t) (w1 w2 : World)
    (sx sy : number) :
  noiseSeeded w1 = noiseSeeded w2 -> gradientAt r w1 sx sy = gradientAt r w2 sx sy.
Proof.
  intros Hs. unfold gradientAt, SimpleGradientRenderer.getGradientColor.
  destruct (SimpleGradientRenderer.useCache r);
    destruct (SimpleGradientRenderer.gradientCache r);
    cbn [fst]; rewrite ?Hs; reflexivity.
Qed.

(** X13: the picture does not move between frames.  For a well-shaped
    engine and a renderer whose lookups cannot throw, rendering after any
    number of frames (each ending with [updateAnimation]) issues the very
    drawing calls, with the same colours, as rendering before them. *)
Theorem X13_rendering_is_the_same_on_every_frame
    (r : SimpleGradientRenderer.t) (engine : GoLEngine)
    (x y cellSize : number) (w : World) (n : nat) :
  shaped engine = true -> usable r = true ->
  let cmds := [Push; NoStroke]
              ++ (gridCells engine ≫= cellCommands r w engine x y cellSize)
              ++ [Pop] in
  SimpleGradientRenderer.renderMaskedGrid r engine x y cellSize w
  = (Return tt, emitAll cmds w)
  /\ SimpleGradientRenderer.renderMaskedGrid (fst (frames n (r, w))) engine
       x y cellSize (snd (frames n (r, w)))
     = (Return tt, emitAll cmds (snd (frames n (r, w)))).
Proof.
  intros Hsh Hu cmds.
  split; [apply renderMaskedGrid_emits; assumption |].
  destruct (frames_spec n r w) as (Hr & Hs & _).
  rewrite Hr, renderMaskedGrid_emits by assumption.
  unfold cmds. do 4 f_equal.
  apply list_bind_ext; [| reflexivity].
  intros [gx gy]. unfold cellCommands.
  destruct (aliveCell engine gx gy); [| reflexivity].
  rewrite !(gradientAt_seed r _ w _ _ Hs). reflexivity.
Qed.

Lemma X13_rendering_is_the_same_witness :
  let cmds := [Push; NoStroke]
              ++ (gridCells engine32
                  ≫= cellCommands rendererRuntime world0 engine32 (ofZ 10) (ofZ 20) (ofZ 3))
              ++ [Pop] in
  SimpleGradientRenderer.renderMaskedGrid rendererRuntime engine32
    (ofZ 10) (ofZ 20) (ofZ 3) world0
  = (Return tt, emitAll cmds world0)
  /\ SimpleGradientRenderer.renderMaskedGrid (fst (frames 5 (rendererRuntime, world0)))
       engine32 (ofZ 10) (ofZ 20) (ofZ 3) (snd (frames 5 (rendererRuntime, world0)))
     = (Return tt, emitAll cmds (snd (frames 5 (rendererRuntime, world0)))).
Proof.
  apply (X13_rendering_is_the_same_on_every_frame rendererRuntime engine32
           (ofZ 10) (ofZ 20) (ofZ 3) world0 5).
  - reflexivity.
  - reflexivity.
Defined.

(** ** The vertical gradient image *)

Lemma div_ofZ (a b : Z) :
  0 < b -> (ofZ a / ofZ b)%js = Fin (Qred (inject_Z a / inject_Z b)).
Proof.
  intros Hb. unfold div, ofZ.
  destruct (Qeq_bool (inject_Z b) 0) eqn:E; [| reflexivity].
  apply Qeq_bool_iff in E. unfold Qeq, inject_Z in E; simpl in E. lia.
Qed.

(** The row [y] of a gradient of [height] rows is in the segment
    [floor(y / height * (n - 1))], which has a successor in the palette
    unless the palette has one colour only. *)
Lemma gradient_segment (n height y : Z) :
  0 < n -> 0 <= y < height ->
  let f := Qfloor (inject_Z y / inject_Z height * inject_Z (n - 1)) in
  0 <= f /\ (f < n - 1 \/ (n = 1 /\ f = 0)).
Proof.
  intros Hn Hy f.
  assert (0 < inject_Z height)%Q as Hh by (apply inject_Z_pos; lia).
  assert (0 <= inject_Z y / inject_Z height)%Q as Ht0.
  { apply Qle_shift_div_l; [exact Hh |]. rewrite Qmult_0_l.
    change 0%Q with (inject_Z 0). rewrite <- Zle_Qle. lia. }
  assert (inject_Z y / inject_Z height < 1)%Q as Ht1.
  { apply Qlt_shift_div_r; [exact Hh |]. rewrite Qmult_1_l.
    rewrite <- Zlt_Qlt. lia. }
  assert (0 <= inject_Z (n - 1))%Q as Hn1.
  { change 0%Q with (inject_Z 0). rewrite <- Zle_Qle. lia. }
  split.
  - apply Qle_floor_Z. change (inject_Z 0) with 0%Q.
    apply Qmult_le_0_compat; assumption.
  - destruct (Z.eq_dec n 1) as [-> | Hne].
    + right. split; [reflexivity |]. unfold f.
      change (inject_Z (1 - 1)) with 0%Q.
      rewrite (Qfloor_comp _ 0%Q) by ring. reflexivity.
    + left. apply Qfloor_lt_Z.
      rewrite <- (Qmult_1_l (inject_Z (n - 1))) at 2.
      apply Qmult_lt_compat_r; [| exact Ht1].
      change 0%Q with (inject_Z 0). rewrite <- Zlt_Qlt. lia.
Qed.

Lemma gradientRow_spec (r : SimpleGradientRenderer.t)
    (p : list (list number)) (width height y : Z) :
  wellFormedPalette p = true -> 0 <= y < height ->
  SimpleGradientRenderer.gradientRow r p width height y
  = Return (rowCalls (specInterpolateEnds (SimpleGradientRenderer.p5 r) p
                        (inject_Z y / inject_Z height)) width y).
Proof.
  intros Hwf Hy.
  pose proof (wellFormedPalette_length _ Hwf) as Hn.
  set (n := Z.of_nat (length p)) in *.
  destruct (gradient_segment n height y Hn Hy) as [Hf0 Hf1].
  set (pos := (inject_Z y / inject_Z height * inject_Z (n - 1))%Q) in *.
  unfold SimpleGradientRenderer.gradientRow. fold n.
  rewrite div_ofZ by lia. rewrite ofZ_sub.
  change (Fin (Qred (inject_Z y / inject_Z height)) * ofZ (n - 1))%js
    with (Fin (Qred (Qred (inject_Z y / inject_Z height) * inject_Z (n - 1)))).
  assert (Qred (inject_Z y / inject_Z height) * inject_Z (n - 1) == pos)%Q as Hpos
    by (unfold pos; rewrite Qred_correct; reflexivity).
  cbn [Math_floor]. rewrite Qfloor_Qred, (Qfloor_comp _ _ Hpos).
  rewrite ofZ_add, Math_min_ofZ.
  assert (Z.min (Qfloor pos + 1) (n - 1) = (Qfloor pos + 1) mod n) as ->.
  { destruct Hf1 as [Hlt | [-> ->]]; [| reflexivity].
    rewrite Z.mod_small by lia. lia. }
  pose proof (Z.mod_pos_bound (Qfloor pos + 1) n Hn) as Hi2.
  rewrite !get_ofZ by lia.
  assert (0 <= Qfloor pos < n) as Hi1 by lia.
  unfold specInterpolateEnds, specSegment. fold n. fold pos.
  rewrite (Z.mod_small (Qfloor pos) n) by lia.
  destruct (wellFormedPalette_lookup p (Qfloor pos) Hwf Hi1) as (c1 & Hc1 & _).
  destruct (wellFormedPalette_lookup p ((Qfloor pos + 1) mod n) Hwf Hi2)
    as (c2 & Hc2 & _).
  rewrite Hc1, Hc2.
  assert ((Fin (Qred (Qred (inject_Z y / inject_Z height) * inject_Z (n - 1)))
           - ofZ (Qfloor pos))%js
          = Fin (Qred (pos - inject_Z (Qfloor pos)))) as ->; [| reflexivity].
  unfold sub, ofZ, Qminus'. f_equal. apply Qred_complete.
  rewrite Qred_correct, Hpos. reflexivity.
Qed.

Lemma gradientRows_spec (r : SimpleGradientRenderer.t)
    (p : list (list number)) (width height : Z) (ys : list Z) :
  wellFormedPalette p = true ->
  Forall (fun y => 0 <= y < height) ys ->
  SimpleGradientRenderer.gradientRows r p width height ys
  = Return (ys ≫= fun y =>
              rowCalls (specInterpolateEnds (SimpleGradientRenderer.p5 r) p
                          (inject_Z y / inject_Z height)) width y).
Proof.
  intros Hwf Hys. induction Hys as [| y ys Hy Hys IH]; [reflexivity |].
  cbn [SimpleGradientRenderer.gradientRows].
  rewrite (gradientRow_spec r p width height y Hwf Hy), IH, bind_cons.
  reflexivity.
Qed.

(** X14: [createGradient] on a well-formed palette.  It never throws (both
    palette reads stay in bounds for every row) and returns a fresh
    [width] by [height] buffer on which it has called [noStroke] and then,
    for each row [y] from 0 to [height - 1] in order, one fill and one
    1-pixel-high rectangle [(0, y, width, 1)]; the fill colour is the
    end-to-end piecewise-linear interpolation of the palette at
    [y / height] (first colour at 0, last colour at 1, no wrap).  So there
    are exactly [height] rectangles, none when [height <= 0]. *)
Theorem X14_createGradient_rows
    (r : SimpleGradientRenderer.t) (width height : Z)
    (config : SimpleGradientRenderer.GradientConfig) :
  wellFormedPalette (SimpleGradientRenderer.cfg_palette config) = true ->
  let rows0 :=
    seqZ 0 height ≫= fun y =>
      rowCalls (specInterpolateEnds (SimpleGradientRenderer.p5 r)
                  (SimpleGradientRenderer.cfg_palette config)
                  (inject_Z y / inject_Z height)) width y in
  SimpleGradientRenderer.createGradient r width height config
  = Return {| SimpleGradientRenderer.image := createGraphics width height;
              SimpleGradientRenderer.imageCalls := NoStroke :: rows0 |}
  /\ length (List.filter isRect (NoStroke :: rows0)) = Z.to_nat height.
Proof.
  intros Hwf rows0. split.
  - unfold SimpleGradientRenderer.createGradient.
    rewrite (gradientRows_spec r _ width height (seqZ 0 height) Hwf);
      [reflexivity |].
    apply Forall_seqZ. intros y Hy. lia.
  - unfold rows0. cbn [List.filter isRect].
    rewrite <- (length_seqZ 0 height).
    induction (seqZ 0 height) as [| y ys IH]; [reflexivity |].
    rewrite bind_cons, List.filter_app, length_app, IH. reflexivity.
Qed.

Lemma X14_createGradient_rows_witness :
  let rows0 :=
    seqZ 0 5 ≫= fun y =>
      rowCalls (specInterpolateEnds (SimpleGradientRenderer.p5 rendererRuntime)
                  (SimpleGradientRenderer.cfg_palette googleConfig)
                  (inject_Z y / inject_Z 5)) 7 y in
  SimpleGradientRenderer.createGradient rendererRuntime 7 5 googleConfig
  = Return {| SimpleGradientRenderer.image := createGraphics 7 5;
              SimpleGradientRenderer.imageCalls := NoStroke :: rows0 |}
  /\ length (List.filter isRect (NoStroke :: rows0)) = Z.to_nat 5.
Proof.
  apply (X14_createGradient_rows rendererRuntime 7 5 googleConfig).
  reflexivity.
Defined.

(** X15: [createGradient] with an empty palette.  As soon as there is a row
    to draw ([height > 0]) the first palette read finds nothing and the
    call throws a TypeError; with no row ([height <= 0]) it returns the
    buffer with only [noStroke] called on it. *)
Theorem X15_createGradient_empty_palette
    (r : SimpleGradientRenderer.t) (width height : Z)
    (config : SimpleGradientRenderer.GradientConfig) :
  SimpleGradientRenderer.cfg_palette config = [] ->
  SimpleGradientRenderer.createGradient r width height config
  = if 0 <? height then TypeError
    else Return {| SimpleGradientRenderer.image := createGraphics width height;
                   SimpleGradientRenderer.imageCalls := [NoStroke] |}.
Proof.
  intros Hp. unfold SimpleGradientRenderer.createGradient. rewrite Hp.
  destruct (Z.ltb_spec 0 height) as [Hh | Hh].
  - rewrite seqZ_cons by exact Hh.
    cbn [SimpleGradientRenderer.gradientRows].
    unfold SimpleGradientRenderer.gradientRow.
    destruct (get [] _) eqn:E; [| reflexivity].
    unfold get in E. destruct (JS.index _); discriminate.
  - rewrite seqZ_nil by exact Hh. reflexivity.
Qed.

Lemma X15_createGradient_empty_palette_witness :
  SimpleGradientRenderer.createGradient rendererRuntime 7 5
    {| SimpleGradientRenderer.cfg_palette := [] |}
  = if 0 <? 5 then TypeError
    else Return {| SimpleGradientRenderer.image := createGraphics 7 5;
                   SimpleGradientRenderer.imageCalls := [NoStroke] |}.
Proof.
  apply (X15_createGradient_empty_palette rendererRuntime 7 5
           {| SimpleGradientRenderer.cfg_palette := [] |}).
  reflexivity.
Defined.

(** ** Resolution of the lookup and lookups through the renderer *)

(** X16: the lookup has half the screen's resolution.  For non-negative
    screen coordinates the colour depends on [floor(x / 2)] and
    [floor(y / 2)] only: all points of the 2 x 2 screen block
    [[2i, 2i + 2) x [2j, 2j + 2)] get the colour of its corner [(2i, 2j)]. *)
Theorem X16_getColor_constant_on_2x2_blocks
    (c : GradientCache.t) (x y : Q) :
  (0 <= x)%Q -> (0 <= y)%Q ->
  GradientCache.getColor c (Fin x) (Fin y)
  = GradientCache.getColor c (ofZ (2 * Qfloor (x * (1 # 2))))
                             (ofZ (2 * Qfloor (y * (1 # 2)))).
Proof.
  assert (forall q, (0 <= q)%Q ->
            GradientCache.cacheCoord c (ofZ (2 * Qfloor (q * (1 # 2))))
            = GradientCache.cacheCoord c (Fin q)) as Hcoord.
  { intros q Hq.
    assert (0 <= Qfloor (q * (1 # 2))) as Hf.
    { apply Qle_floor_Z. change (inject_Z 0) with 0%Q.
      apply Qmult_le_0_compat; [exact Hq | discriminate]. }
    assert (0 <= inject_Z (2 * Qfloor (q * (1 # 2))))%Q as Hq'.
    { change 0%Q with (inject_Z 0). rewrite <- Zle_Qle. lia. }
    destruct (Z.lt_trichotomy (GradientCache.cacheSize c) 0) as [Hn | [Hz | Hp]].
    - unfold ofZ. rewrite !cacheCoord_nonpositive_size by exact Hn. reflexivity.
    - rewrite !cacheCoord_zero_size by exact Hz. reflexivity.
    - unfold ofZ. rewrite !cacheCoord_nonneg by assumption.
      do 2 f_equal.
      rewrite (Qfloor_comp _ (inject_Z (Qfloor (q * (1 # 2))))).
      + apply Qfloor_Z.
      + rewrite inject_Z_mult. change (inject_Z 2) with 2%Q. field. }
  intros Hx Hy. symmetry. apply getColor_coord; apply Hcoord; assumption.
Qed.

Lemma X16_getColor_constant_on_2x2_blocks_witness :
  GradientCache.getColor cache4 (Fin (7 # 2)) (Fin (29 # 3))
  = GradientCache.getColor cache4 (ofZ (2 * Qfloor ((7 # 2) * (1 # 2))))
                                  (ofZ (2 * Qfloor ((29 # 3) * (1 # 2)))).
Proof.
  apply (X16_getColor_constant_on_2x2_blocks cache4 (7 # 2) (29 # 3)).
  - vm_compute. discriminate.
  - vm_compute. discriminate.
Defined.

(** On a cache holding a texture of its positive size a lookup at finite
    coordinates returns three defined values. *)
Lemma getColor_defined (c : GradientCache.t) (x y : Q) :
  baked c = true ->
  exists r g b,
    GradientCache.getColor c (Fin x) (Fin y)
    = Return [Some (ofZ r); Some (ofZ g); Some (ofZ b)].
Proof.
  intros Hb. destruct (baked_inv c Hb) as (Hs & px & Hpx & Hlen).
  set (s := GradientCache.cacheSize c) in *.
  destruct (cacheCoord_range c x Hs) as (ix & Hix & Hrx).
  destruct (cacheCoord_range c y Hs) as (iy & Hiy & Hry).
  fold s in Hrx, Hry.
  assert (0 <= (ix + iy * s) * 4 /\ (ix + iy * s) * 4 + 3 < 4 * s * s)
    as [Hlo Hhi] by nia.
  assert (forall k, 0 <= k < 4 ->
            is_Some (px !! Z.to_nat ((ix + iy * s) * 4 + k))) as Hin.
  { intros k Hk. apply lookup_lt_is_Some. rewrite Hlen. lia. }
  destruct (Hin 0) as [r Hr]; [lia |].
  destruct (Hin 1) as [g Hg]; [lia |].
  destruct (Hin 2) as [b Hbl]; [lia |].
  exists r, g, b.
  rewrite (getColor_at c px (Fin x) (Fin y) ix iy Hpx Hix Hiy) by (fold s; lia).
  fold s. rewrite Hr, Hg, Hbl. reflexivity.
Qed.

(** X17: colours through a caching renderer.  A renderer built with the
    cache enabled and a requested cache size that is absent, zero or
    positive (zero and absent both mean 512) never has a cache of size 0;
    its cache holds a full texture, and [getGradientColor] at finite
    coordinates returns three defined colour values and leaves the global
    state untouched. *)
Theorem X17_caching_renderer_returns_defined_colours
    (G : GoogleColors) (host : P5) (requested : option Z)
    (w0 w : World) (x y : Q) :
  match requested with Some n => 0 <= n | None => True end ->
  let r := fst (SimpleGradientRenderer.new G host
                  {| SimpleGradientRenderer.opt_useCache := None;
                     SimpleGradientRenderer.opt_cacheSize := requested |} w0) in
  exists c red green blue,
    SimpleGradientRenderer.gradientCache r = Some c
    /\ GradientCache.cacheSize c
       = match requested with
         | Some n => if n =? 0 then 512 else n
         | None => 512
         end
    /\ baked c = true
    /\ SimpleGradientRenderer.getGradientColor r (Fin x) (Fin y) w
       = (Return [Some (ofZ red); Some (ofZ green); Some (ofZ blue)], w).
Proof.
  intros Hreq r.
  set (size := match requested with
               | Some 0 | None => 512
               | Some n => n
               end).
  assert (0 < size) as Hsize.
  { unfold size. destruct requested as [[| p | p] |]; lia. }
  assert (size = match requested with
                 | Some n => if n =? 0 then 512 else n
                 | None => 512
                 end) as Hsz.
  { unfold size. destruct requested as [[| p | p] |]; reflexivity. }
  set (c := fst (GradientCache.new G host size
                   (Some [BLUE G; RED G; GREEN G; YELLOW G])
                   (Fin (3 # 1000)) (ofZ 12345) w0)).
  assert (baked c = true) as Hb by (apply new_baked; exact Hsize).
  assert (SimpleGradientRenderer.gradientCache r = Some c
          /\ SimpleGradientRenderer.useCache r = true
          /\ SimpleGradientRenderer.animationOffset r = ofZ 0) as (Hc & Hu & Ha).
  { unfold r, SimpleGradientRenderer.new. cbn [default
      SimpleGradientRenderer.opt_useCache SimpleGradientRenderer.opt_cacheSize].
    fold size. unfold c.
    destruct (GradientCache.new G host size _ _ _ w0). repeat split. }
  destruct (getColor_defined c x (Qred (y + Qred (0 * 1))) Hb)
    as (red & green & blue & Hcol).
  exists c, red, green, blue.
  split; [exact Hc |]. split; [rewrite <- Hsz; reflexivity |].
  split; [exact Hb |].
  unfold SimpleGradientRenderer.getGradientColor. rewrite Hu, Hc, Ha.
  unfold GradientCache.getAnimatedColor.
  change (Fin y + ofZ 0 * ofZ 1)%js with (Fin (Qred (y + Qred (0 * 1)))).
  rewrite Hcol. reflexivity.
Qed.

Lemma X17_caching_renderer_witness :
  let r := fst (SimpleGradientRenderer.new googleColors rampP5
                  {| SimpleGradientRenderer.opt_useCache := None;
                     SimpleGradientRenderer.opt_cacheSize := Some 4 |} world0) in
  exists c red green blue,
    SimpleGradientRenderer.gradientCache r = Some c
    /\ GradientCache.cacheSize c = (if 4 =? 0 then 512 else 4)
    /\ baked c = true
    /\ SimpleGradientRenderer.getGradientColor r (Fin (23 # 2)) (Fin (43 # 2)) world0
       = (Return [Some (ofZ red); Some (ofZ green); Some (ofZ blue)], world0).
Proof.
  apply (X17_caching_renderer_returns_defined_colours googleColors rampP5
           (Some 4) world0 world0 (23 # 2) (43 # 2)).
  simpl. lia.
Defined.
